(** * Token managers, time-warp sessions, deadlock detection and clock
      synchronisation of the trivia game server, embedded from the Python
      sources under [server/] and [client/].

    Conventions of the embedding.
    - A client identity is a Python [str], here [string]; an optional
      holder ([None] or a string) is [option string].
    - Every call of [time.time()] is an explicit argument of the
      operation that makes it.  Instants are exact rationals [Q]; the
      rounding of Python floats is not modelled.
    - [dict] is [gmap], [set] is [gset], [deque] and [list] are [list].
    - An operation takes the object's state and returns the new state
      together with the returned tuple. *)

From Stdlib Require Import QArith Qround ZArith Lqa.
From stdpp Require Import gmap strings list fin_maps pretty.

(** ** Python primitives shared by the classes *)

(** Truth value of a string in a condition ([if s:], [not s]). *)
Definition truthy (s : string) : bool := negb (String.eqb s "").

(** Truth value of [None]-or-string. *)
Definition truthy_opt (o : option string) : bool :=
  match o with
  | Some s => truthy s
  | None => false
  end.

(** [a < b] on instants. *)
Definition Qltb (a b : Q) : bool :=
  (Qnum a * QDen b <? Qnum b * QDen a)%Z.

(** [int(x)]: truncation towards zero. *)
Definition py_int (x : Q) : Z := Z.quot (Qnum x) (QDen x).

(** Values stored in the status dictionaries. *)
Inductive pyval : Type :=
  | PyNone
  | PyBool (b : bool)
  | PyInt (z : Z)
  | PyNum (x : Q)
  | PyStr (s : string)
  | PyList (l : list string).

Definition py_opt_str (o : option string) : pyval :=
  match o with
  | Some s => PyStr s
  | None => PyNone
  end.

(** Reading back the two entries the deadlock detector uses. *)
Definition dict_holder (d : gmap string pyval) (key : string) : option string :=
  match d !! key with
  | Some (PyStr s) => Some s
  | _ => None
  end.

Definition dict_queue (d : gmap string pyval) (key : string) : list string :=
  match d !! key with
  | Some (PyList l) => l
  | _ => []
  end.

(** [for i, x in enumerate(q): if x == c: position = i; break]. *)
Fixpoint find_position (c : string) (q : list string) : option nat :=
  match q with
  | [] => None
  | x :: q' => if String.eqb x c then Some O
               else match find_position c q' with
                    | Some i => Some (S i)
                    | None => None
                    end
  end.

(** ** server/token_manager.py *)

Module TokenManager.

Record t : Type := mk {
  resource_name : string;
  token_holder : option string;
  request_queue : list string;
  token_acquired_time : option Q;
  cooldowns : gmap string Q;
  cooldown_duration : Q;
  pending_requests : gset string
}.

Definition init (name : string) (duration : Q) : t :=
  mk name None [] None ∅ duration ∅.

Definition set_cooldowns (cd : gmap string Q) (s : t) : t :=
  mk (resource_name s) (token_holder s) (request_queue s)
     (token_acquired_time s) cd (cooldown_duration s) (pending_requests s).

(** Last [if]/[else] of [request_token]: grant a free token, else enqueue. *)
Definition grant_or_enqueue (client_id : string) (current_time : Q) (s : t)
  : t * (bool * Z * Z) :=
  match token_holder s, request_queue s with
  | None, [] =>
      (mk (resource_name s) (Some client_id) []
          (Some current_time) (cooldowns s) (cooldown_duration s)
          ({[client_id]} ∪ pending_requests s),
       (true, 0%Z, 0%Z))
  | _, _ =>
      let q := request_queue s ++ [client_id] in
      let position := (Z.of_nat (length q) - 1)%Z in
      (mk (resource_name s) (token_holder s) q
          (token_acquired_time s) (cooldowns s) (cooldown_duration s)
          ({[client_id]} ∪ pending_requests s),
       (false, position, (position * 5)%Z))
  end.

(** The part of [request_token] after the cooldown check. *)
Definition request_pending (client_id : string) (current_time : Q) (s : t)
  : t * (bool * Z * Z) :=
  if bool_decide (client_id ∈ pending_requests s) then
    match find_position client_id (request_queue s) with
    | Some position =>
        (s, (false, Z.of_nat position, (Z.of_nat position * 5)%Z))
    | None =>
        if bool_decide (token_holder s = Some client_id)
        then (s, (true, 0%Z, 0%Z))
        else grant_or_enqueue client_id current_time s
    end
  else grant_or_enqueue client_id current_time s.

Definition request_token (client_id : string) (current_time : Q) (s : t)
  : t * (bool * Z * Z) :=
  match cooldowns s !! client_id with
  | Some cooldown_until =>
      if Qltb current_time cooldown_until
      then (s, (false, (-1)%Z, py_int (cooldown_until - current_time)))
      else request_pending client_id current_time
             (set_cooldowns (delete client_id (cooldowns s)) s)
  | None => request_pending client_id current_time s
  end.

(** The [while self.request_queue and not next_holder] loop of
    [release_token]; one queue element is popped per iteration. *)
Fixpoint drain (current_time : Q) (queue : list string)
    (cd : gmap string Q) (pending : gset string)
    (next_holder : option string) {struct queue}
  : list string * gmap string Q * gset string * option string :=
  match queue with
  | [] => (queue, cd, pending, next_holder)
  | next_client :: rest =>
      if truthy_opt next_holder then (queue, cd, pending, next_holder)
      else
        match cd !! next_client with
        | Some cooldown_until =>
            if Qltb current_time cooldown_until
            then drain current_time rest cd
                   (pending ∖ {[next_client]}) next_holder
            else drain current_time rest (delete next_client cd)
                   pending (Some next_client)
        | None => drain current_time rest cd pending (Some next_client)
        end
  end.

(** What the loop computes when no queued client has a cooldown entry:
    it pops until it holds a non-empty identity (used in the proofs). *)
Fixpoint pop_until_truthy (q : list string) (next_holder : option string)
  : list string * option string :=
  match q with
  | [] => (q, next_holder)
  | c :: rest => if truthy_opt next_holder then (q, next_holder)
                 else pop_until_truthy rest (Some c)
  end.

Definition release_token (client_id : string) (current_time : Q) (s : t)
  : t * (bool * option string) :=
  if bool_decide (token_holder s = Some client_id) then
    let cd := <[client_id := (current_time + cooldown_duration s)%Q]>
                (cooldowns s) in
    let pending := pending_requests s ∖ {[client_id]} in
    match drain current_time (request_queue s) cd pending None with
    | (queue, cd', pending', next_holder) =>
        if truthy_opt next_holder
        then (mk (resource_name s) next_holder queue (Some current_time)
                 cd' (cooldown_duration s) pending',
              (true, next_holder))
        else (mk (resource_name s) None queue None
                 cd' (cooldown_duration s) pending',
              (true, next_holder))
    end
  else (s, (false, None)).

Definition force_release_token (current_time : Q) (s : t)
  : t * (option string * option string) :=
  let previous_holder := token_holder s in
  let pending :=
    match previous_holder with
    | Some p => if truthy p then pending_requests s ∖ {[p]}
                else pending_requests s
    | None => pending_requests s
    end in
  match request_queue s with
  | next_holder :: rest =>
      (mk (resource_name s) (Some next_holder) rest (Some current_time)
          (cooldowns s) (cooldown_duration s) pending,
       (previous_holder, Some next_holder))
  | [] =>
      (mk (resource_name s) None [] None
          (cooldowns s) (cooldown_duration s) pending,
       (previous_holder, None))
  end.

Definition get_status (s : t) : gmap string pyval :=
  let queue_list := request_queue s in
  <["resource" := PyStr (resource_name s)]>
    (<["holder" := py_opt_str (token_holder s)]>
       (<["queue" := PyList queue_list]>
          (<["queue_length" := PyInt (Z.of_nat (length queue_list))]> ∅))).

Definition is_token_held (client_id : option string) (s : t) : bool :=
  match client_id with
  | Some c => bool_decide (token_holder s = Some c)
  | None => bool_decide (token_holder s ≠ None)
  end.

Definition is_in_cooldown (client_id : string) (current_time : Q) (s : t)
  : t * (bool * Z) :=
  match cooldowns s !! client_id with
  | Some cooldown_until =>
      if Qltb current_time cooldown_until
      then (s, (true, py_int (cooldown_until - current_time)))
      else (set_cooldowns (delete client_id (cooldowns s)) s, (false, 0%Z))
  | None => (s, (false, 0%Z))
  end.

(** States the public operations can produce from a fresh manager, with
    arbitrary clients and arbitrary clock readings. *)
Inductive reachable (name : string) (duration : Q) : t -> Prop :=
  | reach_init : reachable name duration (init name duration)
  | reach_request c now s :
      reachable name duration s ->
      reachable name duration (fst (request_token c now s))
  | reach_release c now s :
      reachable name duration s ->
      reachable name duration (fst (release_token c now s))
  | reach_force now s :
      reachable name duration s ->
      reachable name duration (fst (force_release_token now s))
  | reach_is_in_cooldown c now s :
      reachable name duration s ->
      reachable name duration (fst (is_in_cooldown c now s)).

(** The bookkeeping invariant of the manager. *)
Record wf (s : t) : Prop := mk_wf {
  wf_nodup : NoDup (request_queue s);
  wf_holder_not_queued :
    forall h, token_holder s = Some h -> h ∉ request_queue s;
  wf_queue_pending :
    forall c, c ∈ request_queue s -> c ∈ pending_requests s;
  wf_holder_pending :
    forall h, token_holder s = Some h -> h ∈ pending_requests s;
  wf_queue_no_cooldown :
    forall c, c ∈ request_queue s -> cooldowns s !! c = None;
  wf_free_empty :
    token_holder s = None -> request_queue s = []
}.

(** A free token has nobody waiting. *)
Definition free_implies_empty (s : t) : Prop :=
  token_holder s = None -> request_queue s = [].


(** A release called by whoever holds the token at that moment (no call
    when the token is free); used to state what successive releases do. *)
Definition release_by_holder (s : t) (current_time : Q) : t :=
  match token_holder s with
  | Some h => fst (release_token h current_time s)
  | None => s
  end.

End TokenManager.

(** Outcome of a call that may raise: the returned value, or the name of
    the exception that reaches the caller. *)
Inductive py_result (A : Type) : Type :=
  | Return (a : A)
  | Raise (exn : string).
Arguments Return {A} a.
Arguments Raise {A} exn.

(** ** server/leaderboard_token.py *)

Module LeaderboardToken.

Record t : Type := mk {
  has_token : bool;
  queue : list string;
  current_holder : option string;
  last_used : gmap string Q;
  cooldown_period : Q
}.

Definition init : t := mk true [] None ∅ 30.

(** The f-string messages, with the values they interpolate. *)
Inductive message : Type :=
  | CooldownRemaining (remaining : Q)
  | TokenGranted
  | AddedToQueue (position : nat)
  | NotHolder
  | TokenPassed (to : string)
  | TokenReleased.

Definition in_cooldown (player_id : string) (current_time : Q) (s : t)
  : option Q :=
  match last_used s !! player_id with
  | Some used =>
      if Qltb (current_time - used) (cooldown_period s)
      then Some (cooldown_period s - (current_time - used))%Q
      else None
  | None => None
  end.

Definition request_token (player_id : string) (current_time : Q) (s : t)
  : t * py_result (bool * message) :=
  match in_cooldown player_id current_time s with
  | Some remaining => (s, Return (false, CooldownRemaining remaining))
  | None =>
      if has_token s && bool_decide (current_holder s = None) then
        (mk (has_token s) (queue s) (Some player_id) (last_used s)
            (cooldown_period s),
         Return (true, TokenGranted))
      else
        let q := if bool_decide (player_id ∈ queue s) then queue s
                 else queue s ++ [player_id] in
        let s' := mk (has_token s) q (current_holder s) (last_used s)
                     (cooldown_period s) in
        (* [self.queue.index(player_id)] raises when the item is absent *)
        match find_position player_id q with
        | Some i => (s', Return (false, AddedToQueue (i + 1)))
        | None => (s', Raise "ValueError")
        end
  end.

Definition release_token (player_id : string) (current_time : Q) (s : t)
  : t * (bool * message) :=
  if bool_decide (current_holder s = Some player_id) then
    let used := <[player_id := current_time]> (last_used s) in
    match queue s with
    | next :: rest =>
        (mk (has_token s) rest (Some next) used (cooldown_period s),
         (true, TokenPassed next))
    | [] =>
        (mk (has_token s) [] None used (cooldown_period s),
         (true, TokenReleased))
    end
  else (s, (false, NotHolder)).

(** The dictionary holds the queue list itself; its value at the time of
    the call is what is recorded here. *)
Definition get_status (s : t) : gmap string pyval :=
  <["has_token" := PyBool (has_token s)]>
    (<["current_holder" := py_opt_str (current_holder s)]>
       (<["queue" := PyList (queue s)]> ∅)).

Inductive reachable : t -> Prop :=
  | reach_init : reachable init
  | reach_request p now s :
      reachable s -> reachable (fst (request_token p now s))
  | reach_release p now s :
      reachable s -> reachable (fst (release_token p now s)).

End LeaderboardToken.

(** ** server/raymond_server.py *)

Module RaymondServer.

Record t : Type := mk {
  resource_name : string;
  has_token : bool;
  current_holder : option string;
  queue : list string;
  cooldowns : gmap string Q;
  cooldown_duration : Q
}.

Definition init (name : string) (duration : Q) : t :=
  mk name true None [] ∅ duration.

Inductive message : Type :=
  | InCooldown (remaining : Z)
  | AlreadyHeld
  | AlreadyQueued (position : nat)
  | Granted
  | RequestedByMultiple
  | InQueue.

Definition set_cooldowns (cd : gmap string Q) (s : t) : t :=
  mk (resource_name s) (has_token s) (current_holder s) (queue s) cd
     (cooldown_duration s).

(** Position counted by the [for qid in self.queue] loop; the length of
    the queue when the client is not in it. *)
Fixpoint count_position (c : string) (q : list string) : nat :=
  match q with
  | [] => O
  | qid :: q' => if String.eqb qid c then O else S (count_position c q')
  end.

(** [request_token] after the cooldown check.  The [timestamp] argument
    of the method is never read. *)
Definition request_checked (client_id : string) (s : t)
  : t * (bool * Z * message) :=
  if bool_decide (current_holder s = Some client_id) then
    (s, (true, 0%Z, AlreadyHeld))
  else if bool_decide (client_id ∈ queue s) then
    let position := count_position client_id (queue s) in
    (s, (false, Z.of_nat position, AlreadyQueued position))
  else if has_token s && bool_decide (current_holder s = None) then
    (mk (resource_name s) false (Some client_id) (queue s) (cooldowns s)
        (cooldown_duration s),
     (true, 0%Z, Granted))
  else
    let q := queue s ++ [client_id] in
    let s' := mk (resource_name s) (has_token s) (current_holder s) q
                 (cooldowns s) (cooldown_duration s) in
    if bool_decide (1 < length q)%nat
       || bool_decide (current_holder s ≠ None)
    then (s', (false, (Z.of_nat (length q) - 1)%Z, RequestedByMultiple))
    else (s', (false, (Z.of_nat (length q) - 1)%Z, InQueue)).

Definition request_token (client_id : string) (timestamp : Z)
    (current_time : Q) (s : t) : t * (bool * Z * message) :=
  match cooldowns s !! client_id with
  | Some cooldown_until =>
      if Qltb current_time cooldown_until
      then (s, (false, (-1)%Z,
                InCooldown (py_int (cooldown_until - current_time))))
      else request_checked client_id
             (set_cooldowns (delete client_id (cooldowns s)) s)
  | None => request_checked client_id s
  end.

(** The [while self.queue and not next_holder] loop of [release_token]. *)
Fixpoint drain (current_time : Q) (q : list string) (cd : gmap string Q)
    (next_holder : option string) {struct q}
  : list string * gmap string Q * option string :=
  match q with
  | [] => (q, cd, next_holder)
  | next_client :: rest =>
      if truthy_opt next_holder then (q, cd, next_holder)
      else
        match cd !! next_client with
        | Some cooldown_until =>
            if Qltb current_time cooldown_until
            then drain current_time rest cd next_holder
            else drain current_time rest (delete next_client cd)
                   (Some next_client)
        | None => drain current_time rest cd (Some next_client)
        end
  end.

Definition release_token (client_id : string) (current_time : Q) (s : t)
  : t * (bool * option string) :=
  if bool_decide (current_holder s = Some client_id) then
    let cd := <[client_id := (current_time + cooldown_duration s)%Q]>
                (cooldowns s) in
    match drain current_time (queue s) cd None with
    | (q, cd', next_holder) =>
        if truthy_opt next_holder
        then (mk (resource_name s) false next_holder q cd'
                 (cooldown_duration s),
              (true, next_holder))
        else (mk (resource_name s) true None q cd' (cooldown_duration s),
              (true, next_holder))
    end
  else (s, (false, None)).

Definition get_status (s : t) : gmap string pyval :=
  let queue_list := queue s in
  <["resource" := PyStr (resource_name s)]>
    (<["holder" := py_opt_str (current_holder s)]>
       (<["queue" := PyList queue_list]>
          (<["queue_length" := PyInt (Z.of_nat (length queue_list))]> ∅))).

Inductive reachable (name : string) (duration : Q) : t -> Prop :=
  | reach_init : reachable name duration (init name duration)
  | reach_request c ts now s :
      reachable name duration s ->
      reachable name duration (fst (request_token c ts now s))
  | reach_release c now s :
      reachable name duration s ->
      reachable name duration (fst (release_token c now s)).

Record wf (s : t) : Prop := mk_wf {
  wf_nodup : NoDup (queue s);
  wf_holder_not_queued :
    forall h, current_holder s = Some h -> h ∉ queue s
}.

(** What the public operations keep besides [wf]: the server has the
    token exactly when no client holds it, nobody waits for a free token,
    and neither the holder nor a queued client has a cooldown entry. *)
Record inv (s : t) : Prop := mk_inv {
  inv_has_token : has_token s = true <-> current_holder s = None;
  inv_free_empty : current_holder s = None -> queue s = [];
  inv_queue_no_cooldown : forall c, c ∈ queue s -> cooldowns s !! c = None;
  inv_holder_no_cooldown :
    forall h, current_holder s = Some h -> cooldowns s !! h = None
}.

End RaymondServer.

(** [a <= b] on instants. *)
Definition Qleb (a b : Q) : bool := negb (Qltb b a).

(** ** server/ricart_agrawala.py: the simple critical section.

    The file consists of the class alone.  It has no import statement,
    so the global name [time] that two of its methods read is not bound
    in the module. *)

Module RicartAgrawalaSimple.

(** The names the module binds at top level. *)
Definition module_globals : list string := ["RicartAgrawala"].

(** Reading a global name that is not a builtin: [NameError] unless the
    module binds it. *)
Definition read_global (name : string) : py_result unit :=
  if bool_decide (name ∈ module_globals) then Return tt
  else Raise "NameError".

Record t : Type := mk {
  in_critical_section : bool;
  current_holder : option string;
  start_time : Q;
  duration : Q
}.

Definition init : t := mk false None 0 30.

Inductive message : Type :=
  | NotInCriticalSection
  | ReleasedCriticalSection.

Definition release_critical_section (player_id : option string) (s : t)
  : t * (bool * message) :=
  if negb (in_critical_section s)
     || bool_decide (current_holder s ≠ player_id)
  then (s, (false, NotInCriticalSection))
  else (mk false None (start_time s) (duration s),
        (true, ReleasedCriticalSection)).

Definition grant (player_id : string) (current_time : Q) (s : t)
  : t * (bool * option string * Q) :=
  (mk true (Some player_id) current_time (duration s),
   (true, None, duration s)).

(** The statements of [request_critical_section] that follow
    [current_time = time.time()]. *)
Definition request_after_clock (player_id : string) (current_time : Q)
    (s : t) : t * (bool * option string * Q) :=
  if in_critical_section s then
    let remaining := ((start_time s + duration s) - current_time)%Q in
    if Qleb remaining 0
    then grant player_id current_time
           (fst (release_critical_section (current_holder s) s))
    else (s, (false, current_holder s, remaining))
  else grant player_id current_time s.

(** The first statement evaluates [time.time()]: the global [time] is
    read before anything else happens.  [current_time] is the reading
    the call would give; the [timestamp] argument is never read. *)
Definition request_critical_section (player_id : string) (timestamp : Z)
    (current_time : Q) (s : t)
  : t * py_result (bool * option string * Q) :=
  match read_global "time" with
  | Return _ =>
      (fst (request_after_clock player_id current_time s),
       Return (snd (request_after_clock player_id current_time s)))
  | Raise exn => (s, Raise exn)
  end.

(** The statements of [get_status] that follow
    [current_time = time.time()]. *)
Definition status_after_clock (current_time : Q) (s : t)
  : gmap string pyval :=
  let remaining :=
    if in_critical_section s then
      let r := ((start_time s + duration s) - current_time)%Q in
      if Qltb 0 r then PyNum r else PyInt 0
    else PyInt 0 in
  <["in_use" := PyBool (in_critical_section s)]>
    (<["current_holder" := py_opt_str (current_holder s)]>
       (<["remaining" := remaining]> ∅)).

Definition get_status (current_time : Q) (s : t)
  : py_result (gmap string pyval) :=
  match read_global "time" with
  | Return _ => Return (status_after_clock current_time s)
  | Raise exn => Raise exn
  end.

Inductive reachable : t -> Prop :=
  | reach_init : reachable init
  | reach_request p ts now s :
      reachable s -> reachable (fst (request_critical_section p ts now s))
  | reach_release p s :
      reachable s -> reachable (fst (release_critical_section p s)).

End RicartAgrawalaSimple.

(** ** server/server.py: the timer-based critical section
    (class [RicartAgrawala] with cooldowns and deferred replies).

    No method of this class takes [self.lock] while it is held: the
    public methods call the lock-free [_release_critical_section].  The
    guard is therefore left out and each method is one atomic step.
    [timers] lists the arguments of the [threading.Timer] callbacks the
    object has started. *)

Module RicartAgrawala.

Record t : Type := mk {
  resource_name : string;
  deferred_replies : gmap string (list string);
  in_critical_section : option string;
  cs_timestamp : option Z;
  cs_start_time : option Q;
  cs_duration : Q;
  cooldowns : gmap string Q;
  cooldown_duration : Q;
  timers : list (string * Z)
}.

Definition init (name : string) : t :=
  mk name ∅ None None None 90 ∅ 120 [].

Inductive wait_reason : Type :=
  | Cooldown
  | InUse.

Definition _release_critical_section (client_id : string)
    (current_time : Q) (s : t) : t :=
  mk (resource_name s)
     (delete client_id (deferred_replies s))
     None None None (cs_duration s)
     (<[client_id := (current_time + cooldown_duration s)%Q]> (cooldowns s))
     (cooldown_duration s) (timers s).

Definition grant (client_id : string) (timestamp : Z) (current_time : Q)
    (s : t) : t * py_result (bool * option wait_reason * Q) :=
  (mk (resource_name s) (deferred_replies s) (Some client_id)
      (Some timestamp) (Some current_time) (cs_duration s) (cooldowns s)
      (cooldown_duration s) (timers s ++ [(client_id, timestamp)]),
   Return (true, None, cs_duration s)).

(** [self.cs_start_time and current_time - self.cs_start_time > duration] *)
Definition holder_expired (current_time : Q) (s : t) : bool :=
  match cs_start_time s with
  | Some st => negb (Qeq_bool st 0) && Qltb (cs_duration s) (current_time - st)
  | None => false
  end.

(** [request_critical_section] after the cooldown check.  [t_check] is
    the clock reading of the occupancy test, [t_release] that of the
    forced release, [t_grant] that of the grant. *)
Definition request_checked (client_id : string) (timestamp : Z)
    (t_check t_release t_grant : Q) (s : t)
  : t * py_result (bool * option wait_reason * Q) :=
  match in_critical_section s with
  | Some holder =>
      if truthy holder then
        if holder_expired t_check s then
          grant client_id timestamp t_grant
            (_release_critical_section holder t_release s)
        else
          let deferred := default [] (deferred_replies s !! holder) in
          let s' := mk (resource_name s)
                       (<[holder := deferred ++ [client_id]]>
                          (deferred_replies s))
                       (in_critical_section s) (cs_timestamp s)
                       (cs_start_time s) (cs_duration s) (cooldowns s)
                       (cooldown_duration s) (timers s) in
          match cs_start_time s with
          | Some st =>
              (s', Return (false, Some InUse,
                           inject_Z (py_int ((st + cs_duration s) - t_check))))
          | None => (s', Raise "TypeError")
          end
      else grant client_id timestamp t_grant s
  | None => grant client_id timestamp t_grant s
  end.

Definition request_critical_section (client_id : string) (timestamp : Z)
    (t_cooldown t_check t_release t_grant : Q) (s : t)
  : t * py_result (bool * option wait_reason * Q) :=
  match cooldowns s !! client_id with
  | Some cooldown_until =>
      if Qltb t_cooldown cooldown_until
      then (s, Return (false, Some Cooldown,
                       inject_Z (py_int (cooldown_until - t_cooldown))))
      else request_checked client_id timestamp t_check t_release t_grant s
  | None => request_checked client_id timestamp t_check t_release t_grant s
  end.

(** The callback of the timer started by [request_critical_section]. *)
Definition _auto_release_critical_section (client_id : string)
    (timestamp : Z) (current_time : Q) (s : t) : t :=
  if bool_decide (in_critical_section s = Some client_id)
     && bool_decide (cs_timestamp s = Some timestamp)
  then _release_critical_section client_id current_time s
  else s.

Definition release_critical_section (client_id : string)
    (current_time : Q) (s : t) : t * bool :=
  if bool_decide (in_critical_section s = Some client_id)
  then (_release_critical_section client_id current_time s, true)
  else (s, false).

Definition is_in_critical_section (client_id : string) (s : t) : bool :=
  bool_decide (in_critical_section s = Some client_id).

Inductive availability : Type :=
  | Active
  | CoolingDown
  | Available.

(** [self.cs_start_time] as a condition: set and not [0.0]. *)
Definition start_time_truthy (s : t) : option Q :=
  match cs_start_time s with
  | Some st => if Qeq_bool st 0 then None else Some st
  | None => None
  end.

(** [int(max(0, self.cs_duration - elapsed))] *)
Definition remaining_in_section (current_time st : Q) (s : t) : Z :=
  let remaining := (cs_duration s - (current_time - st))%Q in
  if Qltb 0 remaining then py_int remaining else 0%Z.

Definition get_remaining_time (client_id : string) (current_time : Q)
    (s : t) : t * (availability * Z) :=
  let cooldown_part :=
    match cooldowns s !! client_id with
    | Some cooldown_until =>
        if Qltb current_time cooldown_until
        then (s, (CoolingDown, py_int (cooldown_until - current_time)))
        else (mk (resource_name s) (deferred_replies s)
                 (in_critical_section s) (cs_timestamp s) (cs_start_time s)
                 (cs_duration s) (delete client_id (cooldowns s))
                 (cooldown_duration s) (timers s),
              (Available, 0%Z))
    | None => (s, (Available, 0%Z))
    end in
  if bool_decide (in_critical_section s = Some client_id) then
    match start_time_truthy s with
    | Some st => (s, (Active, remaining_in_section current_time st s))
    | None => cooldown_part
    end
  else cooldown_part.

Definition get_status (current_time : Q) (s : t) : gmap string pyval :=
  if truthy_opt (in_critical_section s) then
    let remaining :=
      match start_time_truthy s with
      | Some st => remaining_in_section current_time st s
      | None => 0%Z
      end in
    <["status" := PyStr "in_use"]>
      (<["holder" := py_opt_str (in_critical_section s)]>
         (<["remaining" := PyInt remaining]> ∅))
  else
    <["status" := PyStr "available"]>
      (<["holder" := PyNone]> (<["remaining" := PyInt 0]> ∅)).

(** States produced by the methods and by the timer callbacks, whatever
    the clock readings and whatever the order of the callbacks. *)
Inductive reachable (name : string) : t -> Prop :=
  | reach_init : reachable name (init name)
  | reach_request c ts t1 t2 t3 t4 s :
      reachable name s ->
      reachable name (fst (request_critical_section c ts t1 t2 t3 t4 s))
  | reach_release c now s :
      reachable name s ->
      reachable name (fst (release_critical_section c now s))
  | reach_auto_release c ts now s :
      reachable name s ->
      reachable name (_auto_release_critical_section c ts now s)
  | reach_get_remaining_time c now s :
      reachable name s ->
      reachable name (fst (get_remaining_time c now s)).

End RicartAgrawala.

(** ** server/time_warp_manager.py

    [deactivate_time_warp] takes [self.lock], and two other methods call
    it while they hold that lock.  [threading.Lock] is not reentrant, so
    the guard is part of the state here: [lock s = true] while some
    [with self.lock:] block is open, and a thread that enters a
    [with self.lock:] block on a held lock waits forever. *)

Module TimeWarpManager.

Record t : Type := mk {
  duration : Q;
  cooldown : Q;
  active_warps : gmap string (Q * Q);
  cooldowns : gmap string Q;
  lock : bool;
  timers : list (string * Q)
}.

Definition init (duration cooldown : Q) : t :=
  mk duration cooldown ∅ ∅ false [].

(** What the calling thread observes: the method returns [a] and leaves
    state [s], or the thread is stuck in [acquire] with the object in
    state [s]. *)
Inductive outcome (A : Type) : Type :=
  | Returned (s : t) (a : A)
  | Blocked (s : t).
Arguments Returned {A} s a.
Arguments Blocked {A} s.

Definition set_lock (b : bool) (s : t) : t :=
  mk (duration s) (cooldown s) (active_warps s) (cooldowns s) b (timers s).

(** [with self.lock: body] *)
Definition with_lock {A : Type} (body : t -> outcome A) (s : t) : outcome A :=
  if lock s then Blocked s
  else match body (set_lock true s) with
       | Returned s' a => Returned (set_lock false s') a
       | Blocked s' => Blocked s'
       end.

Inductive message : Type :=
  | InCooldown (remaining : Z)
  | AlreadyActive (remaining : Z)
  | Activated.

Definition in_cooldown (client_id : string) (current_time : Q) (s : t)
  : option Z :=
  match cooldowns s !! client_id with
  | Some cooldown_until =>
      if Qltb current_time cooldown_until
      then Some (py_int (cooldown_until - current_time))
      else None
  | None => None
  end.

Definition still_active (client_id : string) (current_time : Q) (s : t)
  : option Z :=
  match active_warps s !! client_id with
  | Some (_, end_time) =>
      if Qltb current_time end_time
      then Some (py_int (end_time - current_time))
      else None
  | None => None
  end.

Definition activate_time_warp (client_id : string) (current_time : Q)
  : t -> outcome (bool * Q * message) :=
  with_lock (fun s =>
    match in_cooldown client_id current_time s with
    | Some remaining =>
        Returned s (false, inject_Z remaining, InCooldown remaining)
    | None =>
        match still_active client_id current_time s with
        | Some remaining =>
            Returned s (true, inject_Z remaining, AlreadyActive remaining)
        | None =>
            let start_time := current_time in
            let end_time := (start_time + duration s)%Q in
            Returned
              (mk (duration s) (cooldown s)
                  (<[client_id := (start_time, end_time)]> (active_warps s))
                  (cooldowns s) (lock s)
                  (timers s ++ [(client_id, end_time)]))
              (true, duration s, Activated)
        end
    end).

Definition deactivate_time_warp (client_id : string) (current_time : Q)
  : t -> outcome bool :=
  with_lock (fun s =>
    match active_warps s !! client_id with
    | None => Returned s false
    | Some _ =>
        Returned
          (mk (duration s) (cooldown s)
              (delete client_id (active_warps s))
              (<[client_id := (current_time + cooldown s)%Q]> (cooldowns s))
              (lock s) (timers s))
          true
    end).

(** The callback of the timer started by [activate_time_warp]. *)
Definition _auto_deactivate_time_warp (client_id : string)
    (expected_end_time : Q) (current_time : Q) : t -> outcome unit :=
  with_lock (fun s =>
    match active_warps s !! client_id with
    | Some (_, end_time) =>
        if Qeq_bool end_time expected_end_time then
          match deactivate_time_warp client_id current_time s with
          | Returned s' _ => Returned s' tt
          | Blocked s' => Blocked s'
          end
        else Returned s tt
    | None => Returned s tt
    end).

(** [t_cleanup] is the clock reading of the nested deactivation. *)
Definition is_time_warp_active (client_id : string)
    (current_time t_cleanup : Q) : t -> outcome (bool * Z) :=
  with_lock (fun s =>
    match active_warps s !! client_id with
    | Some (_, end_time) =>
        if Qltb current_time end_time
        then Returned s (true, py_int (end_time - current_time))
        else
          match deactivate_time_warp client_id t_cleanup s with
          | Returned s' _ => Returned s' (false, 0%Z)
          | Blocked s' => Blocked s'
          end
    | None => Returned s (false, 0%Z)
    end).

Definition get_score_multiplier (client_id : string)
    (current_time t_cleanup : Q) (s : t) : outcome Z :=
  match is_time_warp_active client_id current_time t_cleanup s with
  | Returned s' (active, _) => Returned s' (if active then 2%Z else 1%Z)
  | Blocked s' => Blocked s'
  end.

(** The dictionary [get_status] builds for one client (keys active,
    remaining, cooldown, multiplier). *)
Record client_status : Type := mk_client_status {
  st_active : bool;
  st_remaining : Z;
  st_cooldown : Z;
  st_multiplier : Z
}.

(** The dictionary [get_status] builds for all clients (keys
    active_warps, cooldowns), each entry a dictionary by client. *)
Record all_status : Type := mk_all_status {
  st_active_warps : gmap string Z;
  st_cooldowns : gmap string Z
}.

Definition get_status (client_id : option string) (current_time : Q)
  : t -> outcome (client_status + all_status) :=
  with_lock (fun s =>
    match client_id with
    | Some c =>
        let live := still_active c current_time s in
        Returned s
          (inl (mk_client_status
                  (match live with Some _ => true | None => false end)
                  (default 0%Z live)
                  (default 0%Z (in_cooldown c current_time s))
                  (match live with Some _ => 2%Z | None => 1%Z end)))
    | None =>
        Returned s
          (inr (mk_all_status
                  (omap (fun w : Q * Q =>
                           if Qltb current_time (snd w)
                           then Some (py_int (snd w - current_time))
                           else None) (active_warps s))
                  (omap (fun e : Q =>
                           if Qltb current_time e
                           then Some (py_int (e - current_time))
                           else None) (cooldowns s))))
    end).

(** The state a call leaves the object in, returned or not. *)
Definition outcome_state {A : Type} (o : outcome A) : t :=
  match o with
  | Returned s _ => s
  | Blocked s => s
  end.

Inductive reachable (d c : Q) : t -> Prop :=
  | reach_init : reachable d c (init d c)
  | reach_activate client now s :
      reachable d c s ->
      reachable d c (outcome_state (activate_time_warp client now s))
  | reach_deactivate client now s :
      reachable d c s ->
      reachable d c (outcome_state (deactivate_time_warp client now s))
  | reach_auto_deactivate client expected now s :
      reachable d c s ->
      reachable d c
        (outcome_state (_auto_deactivate_time_warp client expected now s))
  | reach_is_active client now now' s :
      reachable d c s ->
      reachable d c (outcome_state (is_time_warp_active client now now' s))
  | reach_get_status client now s :
      reachable d c s ->
      reachable d c (outcome_state (get_status client now s)).

End TimeWarpManager.

(** ** server/deadlock_detector.py *)

Module DeadlockDetector.

Record t : Type := mk {
  hint_token_manager : TokenManager.t;
  skip_token_manager : TokenManager.t
}.

(** Strategy: always release the hint token. *)
Definition _resolve_deadlock (current_time : Q) (d : t)
  : t * (option string * option string) :=
  let '(hint', r) :=
    TokenManager.force_release_token current_time (hint_token_manager d) in
  (mk hint' (skip_token_manager d), r).

(** [current_time] is read by the forced release only. *)
Definition check_for_deadlocks (current_time : Q) (d : t) : t * bool :=
  let hint_status := TokenManager.get_status (hint_token_manager d) in
  let skip_status := TokenManager.get_status (skip_token_manager d) in
  match dict_holder hint_status "holder",
        dict_holder skip_status "holder" with
  | Some hint_holder, Some skip_holder =>
      let hint_queue := dict_queue hint_status "queue" in
      let skip_queue := dict_queue skip_status "queue" in
      if bool_decide (hint_holder ∈ skip_queue)
         && bool_decide (skip_holder ∈ hint_queue)
      then (fst (_resolve_deadlock current_time d), true)
      else (d, false)
  | _, _ => (d, false)
  end.

End DeadlockDetector.

(** ** server/clock_sync.py and client/clock_sync.py: the offset
    estimators *)

Module NetworkTimeProtocol.

Record t : Type := mk {
  offset : Q;
  reference_timestamp : Q
}.

Definition init (current_time : Q) : t := mk 0 current_time.

(** [current_time] is the reading stored in [reference_timestamp]. *)
Definition synchronize (t1 t2 t3 t4 : Q) (current_time : Q) (s : t)
  : t * Q :=
  let delay := ((t4 - t1) - (t3 - t2))%Q in
  let offset' := (((t2 - t1) + (t3 - t4)) / 2)%Q in
  if Qltb 0 delay && Qltb delay 5
  then (mk offset' current_time, offset')
  else (s, offset s).

Definition get_adjusted_time (current_time : Q) (s : t) : Q :=
  (current_time + offset s)%Q.

End NetworkTimeProtocol.

Module NetworkTimeClient.

Record t : Type := mk {
  offset : Q;
  reference_timestamp : Q;
  last_sync_time : Q
}.

Definition init (current_time : Q) : t := mk 0 current_time 0.

Definition request_sync (current_time : Q) (s : t) : t * Q :=
  (mk (offset s) (reference_timestamp s) current_time, current_time).

(** [t4] is the reading taken on entry, [current_time] the one stored in
    [reference_timestamp]. *)
Definition process_sync_response (t2 t3 : Q) (t4 current_time : Q) (s : t)
  : t * Q :=
  let t1 := last_sync_time s in
  let delay := ((t4 - t1) - (t3 - t2))%Q in
  let offset' := (((t2 - t1) + (t3 - t4)) / 2)%Q in
  if Qltb 0 delay && Qltb delay 5
  then (mk offset' current_time (last_sync_time s), offset')
  else (s, offset s).

Definition get_adjusted_time (current_time : Q) (s : t) : Q :=
  (current_time + offset s)%Q.

End NetworkTimeClient.

(** ** Calls that TokenManager and RaymondServer both offer *)

Inductive token_call : Type :=
  | CallRequest (client_id : string) (timestamp : Z) (current_time : Q)
  | CallRelease (client_id : string) (current_time : Q).

(** What the caller sees: the granted flag and the position of a request
    (without the wait estimate or the message), the whole result of a
    release. *)
Inductive token_reply : Type :=
  | ReplyRequest (granted : bool) (position : Z)
  | ReplyRelease (success : bool) (next_holder : option string).

Definition token_manager_call (call : token_call) (s : TokenManager.t)
  : TokenManager.t * token_reply :=
  match call with
  | CallRequest c _ now =>
      let '(s', (granted, position, _)) := TokenManager.request_token c now s in
      (s', ReplyRequest granted position)
  | CallRelease c now =>
      let '(s', (success, next_holder)) := TokenManager.release_token c now s in
      (s', ReplyRelease success next_holder)
  end.

Definition raymond_server_call (call : token_call) (s : RaymondServer.t)
  : RaymondServer.t * token_reply :=
  match call with
  | CallRequest c ts now =>
      let '(s', (granted, position, _)) :=
        RaymondServer.request_token c ts now s in
      (s', ReplyRequest granted position)
  | CallRelease c now =>
      let '(s', (success, next_holder)) :=
        RaymondServer.release_token c now s in
      (s', ReplyRelease success next_holder)
  end.

Fixpoint token_manager_run (calls : list token_call) (s : TokenManager.t)
  : list token_reply :=
  match calls with
  | [] => []
  | call :: calls' =>
      snd (token_manager_call call s)
        :: token_manager_run calls' (fst (token_manager_call call s))
  end.

Fixpoint raymond_server_run (calls : list token_call) (s : RaymondServer.t)
  : list token_reply :=
  match calls with
  | [] => []
  | call :: calls' =>
      snd (raymond_server_call call s)
        :: raymond_server_run calls' (fst (raymond_server_call call s))
  end.

(** The two objects hold the same token state. *)
Abbreviation same_token_state tm rs :=
  (TokenManager.token_holder tm = RaymondServer.current_holder rs
   /\ TokenManager.request_queue tm = RaymondServer.queue rs
   /\ TokenManager.cooldowns tm = RaymondServer.cooldowns rs
   /\ TokenManager.cooldown_duration tm = RaymondServer.cooldown_duration rs).

(** ** server/clock_sync.py and client/clock_sync.py: [LogicalClock]
    (the two classes are the same code) *)

Module LogicalClock.

Record t : Type := mk { timestamp : Z }.

Definition init : t := mk 0.

Definition increment (s : t) : t * Z :=
  (mk (timestamp s + 1), (timestamp s + 1)%Z).

Definition sync (received_time : Z) (s : t) : t * Z :=
  (mk (Z.max (timestamp s) received_time + 1),
   (Z.max (timestamp s) received_time + 1)%Z).

Definition get_time (s : t) : Z := timestamp s.

(** The events of a process, in the order it performs them. *)
Inductive event : Type :=
  | Increment
  | Sync (received_time : Z).

Definition step (s : t) (e : event) : t :=
  match e with
  | Increment => fst (increment s)
  | Sync r => fst (sync r s)
  end.

Definition run (events : list event) (s : t) : t := fold_left step events s.

End LogicalClock.

(** ** common/utils.py: [format_time] *)

(** [format(n, "02d")]: decimal digits, padded with zeros to two
    characters, the sign counting as a character. *)
Definition format_02d (n : Z) : string :=
  if (String.length (pretty n) <? 2)%nat then "0" +:+ pretty n else pretty n.

(** [seconds // 60] and [seconds % 60], each passed through [int], for
    [seconds >= 0]: there the float remainder and the float floor
    division are exact, and they are the rational ones below.  For
    negative floats [seconds % 60] is a rounded sum and can be [60.0];
    the properties of [format_time] are stated for [seconds >= 0]. *)
Definition minutes_of (seconds : Q) : Z := Qfloor (seconds / 60).

Definition seconds_of (seconds : Q) : Z :=
  py_int (seconds - 60 * inject_Z (Qfloor (seconds / 60))).

Definition format_time (seconds : Q) : string :=
  format_02d (minutes_of seconds) +:+ ":" +:+ format_02d (seconds_of seconds).

(** * Properties *)

(** ** Python primitives *)

(** Closed decidable goals (membership in a concrete set or list) are
    settled by evaluating their decision procedure. *)
Ltac by_evaluation := apply (bool_decide_unpack _); vm_compute; exact I.

Lemma Qltb_lt (a b : Q) : Qltb a b = true <-> (a < b)%Q.
Proof. unfold Qltb, Qlt. apply Z.ltb_lt. Qed.

Lemma Qltb_ge (a b : Q) : Qltb a b = false <-> (b <= a)%Q.
Proof. unfold Qltb, Qle. apply Z.ltb_ge. Qed.

Lemma truthy_true (s : string) : truthy s = true <-> s ≠ "".
Proof.
  unfold truthy. rewrite negb_true_iff. apply String.eqb_neq.
Qed.

Lemma find_position_None (c : string) (q : list string) :
  find_position c q = None <-> c ∉ q.
Proof.
  induction q as [|x q IH]; simpl.
  - split; [intros _; apply not_elem_of_nil | done].
  - rewrite not_elem_of_cons. destruct (String.eqb_spec x c) as [->|Hne].
    + split; [done | intros [? _]; done].
    + destruct (find_position c q).
      * split; [done | intros [_ Hq]; apply IH in Hq; done].
      * split; [intros _; split; [congruence | by apply IH] | done].
Qed.

Lemma find_position_Some (c : string) (q : list string) (i : nat) :
  find_position c q = Some i -> q !! i = Some c.
Proof.
  revert i. induction q as [|x q IH]; simpl; intros i; [done|].
  destruct (String.eqb_spec x c) as [->|Hne].
  - intros [= <-]. done.
  - destruct (find_position c q) as [j|]; [|done].
    intros [= <-]. simpl. by apply IH.
Qed.

(** ** TokenManager: the bookkeeping invariant *)

Section TokenManagerInvariant.
Import TokenManager.

Lemma drain_no_cooldown now q cd pending next :
  (forall c, c ∈ q -> cd !! c = None) ->
  drain now q cd pending next =
    (fst (pop_until_truthy q next), cd, pending,
     snd (pop_until_truthy q next)).
Proof.
  revert next. induction q as [|c q IH]; intros next Hq; simpl; [done|].
  destruct (truthy_opt next); [done|].
  rewrite (Hq c) by apply list_elem_of_here.
  apply IH. intros c' Hc'. apply Hq. by apply list_elem_of_further.
Qed.

Lemma pop_until_truthy_spec q next :
  exists popped,
    q = popped ++ fst (pop_until_truthy q next)
    /\ (snd (pop_until_truthy q next) = next
        \/ exists c, snd (pop_until_truthy q next) = Some c /\ c ∈ popped)
    /\ (truthy_opt (snd (pop_until_truthy q next)) = false ->
        fst (pop_until_truthy q next) = []).
Proof.
  revert next. induction q as [|c q IH]; intros next; simpl.
  - exists []. auto.
  - destruct (truthy_opt next) eqn:Hn.
    + exists []. simpl. rewrite Hn. split; [done|]. split; [by left|done].
    + destruct (IH (Some c)) as (popped & Hq & Hnext & Hfree).
      exists (c :: popped). split; [simpl; congruence|].
      split; [|done]. right.
      destruct Hnext as [Heq | (c' & Heq & Hin)].
      * exists c. split; [done | apply list_elem_of_here].
      * exists c'. split; [done | by apply list_elem_of_further].
Qed.

Lemma wf_init name duration : wf (init name duration).
Proof.
  constructor; simpl; try done; try apply NoDup_nil_2;
    intros c Hc; by apply elem_of_nil in Hc.
Qed.

Lemma wf_set_cooldowns_delete c s :
  wf s -> wf (set_cooldowns (delete c (cooldowns s)) s).
Proof.
  intros [H1 H2 H3 H4 H5 H6]. constructor; simpl; try done.
  intros c' Hc'. apply lookup_delete_None. right. by apply H5.
Qed.

Lemma wf_grant_or_enqueue c now s :
  wf s -> c ∉ request_queue s -> token_holder s ≠ Some c ->
  cooldowns s !! c = None ->
  wf (fst (grant_or_enqueue c now s)).
Proof.
  intros [H1 H2 H3 H4 H5 H6] Hq Hh Hcd. unfold grant_or_enqueue.
  destruct (token_holder s) as [h|] eqn:Hholder.
  - constructor; simpl.
    + apply NoDup_app. split; [done|]. split.
      * intros x Hx ->%list_elem_of_singleton. done.
      * apply NoDup_singleton.
    + intros h' [= <-]. rewrite elem_of_app.
      intros [Hin | ->%list_elem_of_singleton]; [by eapply H2 | done].
    + intros x [Hx | ->%list_elem_of_singleton]%elem_of_app.
      * apply elem_of_union_r. by apply H3.
      * apply elem_of_union_l. by apply elem_of_singleton_2.
    + intros h' [= <-]. apply elem_of_union_r. by apply H4.
    + intros x [Hx | ->%list_elem_of_singleton]%elem_of_app;
        [by apply H5 | done].
    + done.
  - rewrite (H6 eq_refl). constructor; simpl.
    + apply NoDup_nil_2.
    + intros h _ Hin. by apply elem_of_nil in Hin.
    + intros x Hx. by apply elem_of_nil in Hx.
    + intros h [= <-]. apply elem_of_union_l. by apply elem_of_singleton_2.
    + intros x Hx. by apply elem_of_nil in Hx.
    + done.
Qed.

Lemma wf_request_pending c now s :
  wf s -> cooldowns s !! c = None -> wf (fst (request_pending c now s)).
Proof.
  intros Hwf Hcd. unfold request_pending.
  destruct (bool_decide (c ∈ pending_requests s)) eqn:Hp.
  - destruct (find_position c (request_queue s)) eqn:Hpos; [done|].
    apply find_position_None in Hpos.
    destruct (bool_decide (token_holder s = Some c)) eqn:Hh; [done|].
    apply bool_decide_eq_false in Hh. by apply wf_grant_or_enqueue.
  - apply bool_decide_eq_false in Hp.
    apply wf_grant_or_enqueue; [done| | |done].
    + intros Hin. apply Hp. by apply (wf_queue_pending s Hwf).
    + intros Hh. apply Hp. by apply (wf_holder_pending s Hwf).
Qed.

Lemma wf_request_token c now s : wf s -> wf (fst (request_token c now s)).
Proof.
  intros Hwf. unfold request_token.
  destruct (cooldowns s !! c) as [cooldown_until|] eqn:Hcd.
  - destruct (Qltb now cooldown_until); [done|].
    apply wf_request_pending.
    + by apply wf_set_cooldowns_delete.
    + simpl. apply lookup_delete_eq.
  - by apply wf_request_pending.
Qed.

Lemma wf_release_token c now s : wf s -> wf (fst (release_token c now s)).
Proof.
  intros Hwf. unfold release_token.
  destruct (bool_decide (token_holder s = Some c)) eqn:Hh; [|done].
  apply bool_decide_eq_true in Hh.
  pose proof (wf_holder_not_queued s Hwf c Hh) as Hcq.
  rewrite drain_no_cooldown; last first.
  { intros x Hx. rewrite lookup_insert_ne; [by apply (wf_queue_no_cooldown s Hwf)|].
    intros ->. done. }
  destruct (pop_until_truthy_spec (request_queue s) None)
    as (popped & Hq & Hnext & Hfree).
  destruct (pop_until_truthy (request_queue s) None) as [q' next'].
  simpl in *.
  pose proof (wf_nodup s Hwf) as Hnd. rewrite Hq in Hnd.
  apply NoDup_app in Hnd as (_ & Hdisj & Hnd').
  assert (Hsub : forall x, x ∈ q' -> x ∈ request_queue s).
  { intros x Hx. rewrite Hq. apply elem_of_app. by right. }
  assert (Hkeep : forall x, x ∈ request_queue s ->
                            x ∈ pending_requests s ∖ {[c]}).
  { intros x Hx. apply elem_of_difference. split.
    - by apply (wf_queue_pending s Hwf).
    - intros ->%elem_of_singleton. done. }
  assert (Hcool : forall x, x ∈ q' ->
            <[c:=(now + cooldown_duration s)%Q]> (cooldowns s) !! x = None).
  { intros x Hx. rewrite lookup_insert_ne.
    - apply (wf_queue_no_cooldown s Hwf). by apply Hsub.
    - intros ->. apply Hcq. by apply Hsub. }
  destruct (truthy_opt next') eqn:Htr.
  - destruct Hnext as [-> | (x & -> & Hx)]; [done|].
    constructor; simpl; try done.
    + intros h [= <-] Hin. by apply (Hdisj x).
    + intros y Hy. apply Hkeep. by apply Hsub.
    + intros h [= <-]. apply Hkeep. rewrite Hq. apply elem_of_app. by left.
  - rewrite (Hfree eq_refl). constructor; simpl; try done;
      try apply NoDup_nil_2; intros y Hy; by apply elem_of_nil in Hy.
Qed.

Lemma wf_force_release_token now s :
  wf s -> wf (fst (force_release_token now s)).
Proof.
  intros [H1 H2 H3 H4 H5 H6]. unfold force_release_token.
  destruct (request_queue s) as [|next rest] eqn:Hq.
  - constructor; simpl; try done; try apply NoDup_nil_2;
      intros y Hy; by apply elem_of_nil in Hy.
  - apply NoDup_cons in H1 as [Hnext Hrest].
    assert (Hpending : forall x, x ∈ next :: rest ->
      x ∈ match token_holder s with
          | Some p => if truthy p then pending_requests s ∖ {[p]}
                      else pending_requests s
          | None => pending_requests s
          end).
    { intros x Hx. destruct (token_holder s) as [p|] eqn:Hp; [|by apply H3].
      destruct (truthy p); [|by apply H3].
      apply elem_of_difference. split; [by apply H3|].
      intros ->%elem_of_singleton. by apply (H2 p). }
    constructor; simpl; try done.
    + intros h [= <-]. done.
    + intros x Hx. apply Hpending. by apply list_elem_of_further.
    + intros h [= <-]. apply Hpending. apply list_elem_of_here.
    + intros x Hx. apply H5. by apply list_elem_of_further.
Qed.

Lemma wf_is_in_cooldown c now s : wf s -> wf (fst (is_in_cooldown c now s)).
Proof.
  intros Hwf. unfold is_in_cooldown.
  destruct (cooldowns s !! c) as [cooldown_until|]; [|done].
  destruct (Qltb now cooldown_until); [done|].
  by apply wf_set_cooldowns_delete.
Qed.

Lemma reachable_wf name duration s : reachable name duration s -> wf s.
Proof.
  induction 1 as [|c now s _ IH|c now s _ IH|now s _ IH|c now s _ IH].
  - apply wf_init.
  - by apply wf_request_token.
  - by apply wf_release_token.
  - by apply wf_force_release_token.
  - by apply wf_is_in_cooldown.
Qed.

End TokenManagerInvariant.

(** ** TokenManager: the release loop *)

Section TokenManagerDrain.
Import TokenManager.

(** The loop stops at once when it already has a non-empty identity. *)
Lemma drain_truthy now q cd pending next :
  truthy_opt next = true -> drain now q cd pending next = (q, cd, pending, next).
Proof. intros Hn. destruct q; simpl; [done | by rewrite Hn]. Qed.

(** The loop only leaves with a falsy candidate once the queue is empty. *)
Lemma drain_exit now q cd pending next :
  truthy_opt (snd (drain now q cd pending next)) = false ->
  fst (fst (fst (drain now q cd pending next))) = [].
Proof.
  revert cd pending next.
  induction q as [|c q IH]; intros cd pending next; simpl; [done|].
  destruct (truthy_opt next) eqn:Hn; [simpl; congruence|].
  destruct (cd !! c) as [u|]; [destruct (Qltb now u)|]; apply IH.
Qed.

(** A prefix of clients with unexpired cooldowns is skipped, and each of
    them is evicted from the pending set. *)
Lemma drain_skip now skipped rest cd pending next :
  truthy_opt next = false ->
  Forall (fun c => exists u, cd !! c = Some u /\ (now < u)%Q) skipped ->
  drain now (skipped ++ rest) cd pending next =
    drain now rest cd (pending ∖ list_to_set skipped) next.
Proof.
  intros Hn. revert pending.
  induction skipped as [|c skipped IH]; intros pending Hsk; simpl.
  - by rewrite difference_empty_L.
  - apply Forall_cons in Hsk as [(u & Hc & Hu) Hsk].
    rewrite Hn, Hc. apply Qltb_lt in Hu. rewrite Hu.
    rewrite IH by done.
    by rewrite difference_difference_l_L.
Qed.

(** A non-empty client whose cooldown is absent or expired is taken. *)
Lemma drain_take now c rest cd pending next :
  truthy_opt next = false -> c ≠ "" ->
  (forall u, cd !! c = Some u -> (u <= now)%Q) ->
  drain now (c :: rest) cd pending next =
    (rest, delete c cd, pending, Some c).
Proof.
  intros Hn Hc Hcd. simpl. rewrite Hn.
  assert (Htr : truthy_opt (Some c) = true) by by apply truthy_true.
  destruct (cd !! c) as [u|] eqn:Hu.
  - specialize (Hcd u eq_refl). apply Qltb_ge in Hcd. rewrite Hcd.
    by apply drain_truthy.
  - rewrite drain_truthy by done. by rewrite delete_id.
Qed.

End TokenManagerDrain.

(** ** RaymondServer and LeaderboardToken: queue invariants *)

Section RaymondInvariant.
Import RaymondServer.

Lemma raymond_drain_spec now q cd next :
  exists popped,
    q = popped ++ fst (fst (drain now q cd next))
    /\ (snd (drain now q cd next) = next
        \/ exists c, snd (drain now q cd next) = Some c /\ c ∈ popped).
Proof.
  revert cd next. induction q as [|c q IH]; intros cd next; simpl.
  - exists []. auto.
  - destruct (truthy_opt next) eqn:Hn.
    { exists []. auto. }
    assert (Hstep : forall cd' next',
      (next' = next \/ next' = Some c) ->
      exists popped,
        c :: q = popped ++ fst (fst (drain now q cd' next'))
        /\ (snd (drain now q cd' next') = next
            \/ exists x, snd (drain now q cd' next') = Some x /\ x ∈ popped)).
    { intros cd' next' Hnext'.
      destruct (IH cd' next') as (popped & Hq & Hres).
      exists (c :: popped). split; [simpl; congruence|].
      destruct Hres as [Heq | (x & Heq & Hx)].
      - destruct Hnext' as [-> | ->]; [by left|].
        right. exists c. split; [done | apply list_elem_of_here].
      - right. exists x. split; [done | by apply list_elem_of_further]. }
    destruct (cd !! c) as [u|]; [destruct (Qltb now u)|]; apply Hstep; auto.
Qed.

Lemma raymond_wf_init name duration : wf (init name duration).
Proof.
  constructor; simpl; [apply NoDup_nil_2|].
  intros h _ Hin. by apply elem_of_nil in Hin.
Qed.

Lemma raymond_wf_request_checked c s :
  wf s -> wf (fst (request_checked c s)).
Proof.
  intros [Hnd Hh]. unfold request_checked.
  destruct (bool_decide (current_holder s = Some c)) eqn:Hc; [done|].
  apply bool_decide_eq_false in Hc.
  destruct (bool_decide (c ∈ queue s)) eqn:Hq; [done|].
  apply bool_decide_eq_false in Hq.
  destruct (has_token s && bool_decide (current_holder s = None)).
  - constructor; simpl; [done|]. by intros h [= <-].
  - assert (wf (mk (resource_name s) (has_token s) (current_holder s)
                   (queue s ++ [c]) (cooldowns s) (cooldown_duration s))).
    { constructor; simpl.
      - apply NoDup_app. split; [done|]. split; [|apply NoDup_singleton].
        intros x Hx ->%list_elem_of_singleton. done.
      - intros h Hhold [Hin | ->%list_elem_of_singleton]%elem_of_app;
          [by apply (Hh h) | done]. }
    by destruct (_ || _).
Qed.

Lemma raymond_wf_request_token c ts now s :
  wf s -> wf (fst (request_token c ts now s)).
Proof.
  intros Hwf. unfold request_token.
  destruct (cooldowns s !! c) as [u|].
  - destruct (Qltb now u); [done|].
    apply raymond_wf_request_checked. by destruct Hwf.
  - by apply raymond_wf_request_checked.
Qed.

Lemma raymond_wf_release_token c now s :
  wf s -> wf (fst (release_token c now s)).
Proof.
  intros [Hnd Hh]. unfold release_token.
  destruct (bool_decide (current_holder s = Some c)); [|done].
  destruct (raymond_drain_spec now (queue s)
              (<[c:=(now + cooldown_duration s)%Q]> (cooldowns s)) None)
    as (popped & Hq & Hnext).
  destruct (drain now (queue s) _ None) as [[q' cd'] next'].
  simpl in *. rewrite Hq in Hnd.
  apply NoDup_app in Hnd as (_ & Hdisj & Hnd').
  destruct (truthy_opt next') eqn:Htr.
  - destruct Hnext as [-> | (x & -> & Hx)]; [done|].
    constructor; simpl; [done|]. intros h [= <-]. by apply Hdisj.
  - constructor; simpl; [done|]. done.
Qed.

Lemma raymond_reachable_wf name duration s :
  reachable name duration s -> wf s.
Proof.
  induction 1 as [|c ts now s _ IH|c now s _ IH].
  - apply raymond_wf_init.
  - by apply raymond_wf_request_token.
  - by apply raymond_wf_release_token.
Qed.

End RaymondInvariant.

Section LeaderboardInvariant.
Import LeaderboardToken.

Lemma leaderboard_request_nodup p now s :
  NoDup (queue s) -> NoDup (queue (fst (request_token p now s))).
Proof.
  intros Hnd. unfold request_token.
  destruct (in_cooldown p now s); [done|].
  destruct (has_token s && bool_decide (current_holder s = None)); [done|].
  assert (NoDup (if bool_decide (p ∈ queue s) then queue s
                 else queue s ++ [p])) as Hnd'.
  { destruct (bool_decide (p ∈ queue s)) eqn:Hp; [done|].
    apply bool_decide_eq_false in Hp.
    apply NoDup_app. split; [done|]. split; [|apply NoDup_singleton].
    intros x Hx ->%list_elem_of_singleton. done. }
  by destruct (find_position p _).
Qed.

Lemma leaderboard_release_nodup p now s :
  NoDup (queue s) -> NoDup (queue (fst (release_token p now s))).
Proof.
  intros Hnd. unfold release_token.
  destruct (bool_decide (current_holder s = Some p)); [|done].
  destruct (queue s) as [|next rest]; simpl; [apply NoDup_nil_2|].
  by apply NoDup_cons in Hnd as [_ ?].
Qed.

Lemma leaderboard_reachable_nodup s : reachable s -> NoDup (queue s).
Proof.
  induction 1 as [|p now s _ IH|p now s _ IH].
  - apply NoDup_nil_2.
  - by apply leaderboard_request_nodup.
  - by apply leaderboard_release_nodup.
Qed.

(** [list.index] finds the player it has just made sure is queued. *)
Lemma leaderboard_request_returns p now s :
  exists r, snd (request_token p now s) = Return r.
Proof.
  unfold request_token.
  destruct (in_cooldown p now s); [by eexists|].
  destruct (has_token s && bool_decide (current_holder s = None));
    [by eexists|].
  destruct (find_position p _) eqn:Hpos; [by eexists|].
  apply find_position_None in Hpos. exfalso. apply Hpos.
  destruct (bool_decide (p ∈ queue s)) eqn:Hp.
  - by apply bool_decide_eq_true in Hp.
  - apply elem_of_app. right. by apply list_elem_of_singleton.
Qed.

End LeaderboardInvariant.

(** ** TokenManager: a free token has an empty queue *)

Section TokenManagerFree.
Import TokenManager.

Lemma free_grant_or_enqueue c now s :
  free_implies_empty s -> free_implies_empty (fst (grant_or_enqueue c now s)).
Proof.
  intros Hinv. unfold grant_or_enqueue, free_implies_empty.
  destruct (token_holder s) as [h|] eqn:Hh; simpl; [done|].
  rewrite (Hinv Hh). done.
Qed.

Lemma free_request_pending c now s :
  free_implies_empty s -> free_implies_empty (fst (request_pending c now s)).
Proof.
  intros Hinv. unfold request_pending.
  destruct (bool_decide (c ∈ pending_requests s)).
  - destruct (find_position c (request_queue s)); [done|].
    destruct (bool_decide (token_holder s = Some c)); [done|].
    by apply free_grant_or_enqueue.
  - by apply free_grant_or_enqueue.
Qed.

Lemma free_request_token c now s :
  free_implies_empty s -> free_implies_empty (fst (request_token c now s)).
Proof.
  intros Hinv. unfold request_token.
  destruct (cooldowns s !! c) as [u|]; [|by apply free_request_pending].
  destruct (Qltb now u); [done|]. by apply free_request_pending.
Qed.

Lemma free_release_token c now s :
  free_implies_empty s -> free_implies_empty (fst (release_token c now s)).
Proof.
  intros Hinv. unfold release_token.
  destruct (bool_decide (token_holder s = Some c)); [|done].
  pose proof (drain_exit now (request_queue s)
    (<[c:=(now + cooldown_duration s)%Q]> (cooldowns s))
    (pending_requests s ∖ {[c]}) None) as Hexit.
  destruct (drain now (request_queue s) _ _ None) as [[[q' cd'] pending'] next'].
  simpl in Hexit.
  destruct (truthy_opt next') eqn:Htr; unfold free_implies_empty; simpl.
  - intros ->. done.
  - intros _. by apply Hexit.
Qed.

Lemma free_force_release_token now s :
  free_implies_empty (fst (force_release_token now s)).
Proof.
  unfold force_release_token, free_implies_empty.
  by destruct (request_queue s).
Qed.

(** A request that finds the token free is never queued: it is refused
    when the client is cooling down, and granted otherwise. *)
Lemma request_while_free c now s :
  free_implies_empty s -> token_holder s = None ->
  (exists u, cooldowns s !! c = Some u /\ (now < u)%Q
             /\ request_token c now s
                = (s, (false, (-1)%Z, py_int (u - now))))
  \/ (snd (request_token c now s) = (true, 0%Z, 0%Z)
      /\ token_holder (fst (request_token c now s)) = Some c
      /\ token_acquired_time (fst (request_token c now s)) = Some now
      /\ request_queue (fst (request_token c now s)) = []).
Proof.
  intros Hinv Hfree. pose proof (Hinv Hfree) as Hq.
  assert (Hgrant : forall cd,
    let r := request_pending c now (set_cooldowns cd s) in
    snd r = (true, 0%Z, 0%Z) /\ token_holder (fst r) = Some c
    /\ token_acquired_time (fst r) = Some now /\ request_queue (fst r) = []).
  { intros cd. unfold request_pending, grant_or_enqueue. simpl.
    rewrite Hfree, Hq. simpl.
    by destruct (bool_decide (c ∈ pending_requests s)). }
  unfold request_token.
  destruct (cooldowns s !! c) as [u|] eqn:Hcd.
  - destruct (Qltb now u) eqn:Hu.
    + left. exists u. apply Qltb_lt in Hu. done.
    + right. apply Hgrant.
  - right. specialize (Hgrant (cooldowns s)).
    replace (set_cooldowns (cooldowns s) s) with s in Hgrant by by destruct s.
    apply Hgrant.
Qed.

(** C10, as amended: the invariant "token free implies queue empty" holds
    initially and is preserved by [request_token], [release_token] and
    [force_release_token]; consequently a request that arrives while the
    token is free is never queued: it is granted immediately, unless the
    requester is within an unexpired cooldown, in which case it is
    refused with position -1. *)
Theorem token_free_queue_empty name duration c now s :
  free_implies_empty s ->
  free_implies_empty (init name duration)
  /\ free_implies_empty (fst (request_token c now s))
  /\ free_implies_empty (fst (release_token c now s))
  /\ free_implies_empty (fst (force_release_token now s))
  /\ (token_holder s = None ->
      (exists u, cooldowns s !! c = Some u /\ (now < u)%Q
                 /\ request_token c now s
                    = (s, (false, (-1)%Z, py_int (u - now))))
      \/ (snd (request_token c now s) = (true, 0%Z, 0%Z)
          /\ token_holder (fst (request_token c now s)) = Some c
          /\ token_acquired_time (fst (request_token c now s)) = Some now
          /\ request_queue (fst (request_token c now s)) = [])).
Proof.
  intros Hinv. split; [done|].
  split; [by apply free_request_token|].
  split; [by apply free_release_token|].
  split; [apply free_force_release_token|].
  by apply request_while_free.
Qed.

Lemma token_free_queue_empty_witness :
  free_implies_empty (init "hint" 30)
  /\ snd (request_token "A" 0 (init "hint" 30)) = (true, 0%Z, 0%Z).
Proof.
  assert (Hinv : free_implies_empty (init "hint" 30)) by (intros _; reflexivity).
  split; [exact Hinv|].
  destruct (token_free_queue_empty "hint" 30 "A" 0 (init "hint" 30) Hinv)
    as (_ & _ & _ & _ & Hreq).
  destruct (Hreq eq_refl) as [(u & Hu & _) | (Hres & _)].
  - vm_compute in Hu. discriminate Hu.
  - exact Hres.
Defined.

(** C10, the claim as stated fails: the token is free, yet the request of
    a client that has just released it is refused, not granted. *)
Lemma request_while_free_refused :
  let s := fst (release_token "A" 1
                  (fst (request_token "A" 0 (init "hint" 30)))) in
  reachable "hint" 30 s
  /\ token_holder s = None
  /\ request_queue s = []
  /\ snd (request_token "A" 2 s) = (false, (-1)%Z, 29%Z).
Proof.
  split; [do 2 constructor; apply reach_init|].
  repeat split; vm_compute; reflexivity.
Qed.

End TokenManagerFree.

(** ** The queue invariants of the three token managers *)

(** C5, as amended: in every state of TokenManager and of RaymondServer
    reachable from the initial state by their public operations, no
    client is both the holder and in the wait queue, and no client is in
    the wait queue twice; in every reachable state of LeaderboardToken no
    client is in the wait queue twice (its holder may be queued as
    well). *)
Theorem queue_invariants name duration name' duration'
    (tm : TokenManager.t) (rs : RaymondServer.t) (lt : LeaderboardToken.t) :
  TokenManager.reachable name duration tm ->
  RaymondServer.reachable name' duration' rs ->
  LeaderboardToken.reachable lt ->
  (NoDup (TokenManager.request_queue tm)
   /\ forall h, TokenManager.token_holder tm = Some h ->
                h ∉ TokenManager.request_queue tm)
  /\ (NoDup (RaymondServer.queue rs)
      /\ forall h, RaymondServer.current_holder rs = Some h ->
                   h ∉ RaymondServer.queue rs)
  /\ NoDup (LeaderboardToken.queue lt).
Proof.
  intros Htm Hrs Hlt.
  apply reachable_wf in Htm. apply raymond_reachable_wf in Hrs.
  split; [|split].
  - split; [apply (TokenManager.wf_nodup tm Htm)|].
    apply (TokenManager.wf_holder_not_queued tm Htm).
  - split; [apply (RaymondServer.wf_nodup rs Hrs)|].
    apply (RaymondServer.wf_holder_not_queued rs Hrs).
  - by apply leaderboard_reachable_nodup.
Qed.

Lemma queue_invariants_witness :
  NoDup (TokenManager.request_queue
           (fst (TokenManager.request_token "B" 1
              (fst (TokenManager.request_token "A" 0
                 (TokenManager.init "hint" 30))))))
  /\ NoDup (RaymondServer.queue
              (fst (RaymondServer.request_token "B" 2 1
                 (fst (RaymondServer.request_token "A" 1 0
                    (RaymondServer.init "leaderboard" 30))))))
  /\ NoDup (LeaderboardToken.queue
              (fst (LeaderboardToken.request_token "A" 1
                 (fst (LeaderboardToken.request_token "A" 0
                    LeaderboardToken.init))))).
Proof.
  destruct (queue_invariants "hint" 30 "leaderboard" 30
    (fst (TokenManager.request_token "B" 1
       (fst (TokenManager.request_token "A" 0
          (TokenManager.init "hint" 30)))))
    (fst (RaymondServer.request_token "B" 2 1
       (fst (RaymondServer.request_token "A" 1 0
          (RaymondServer.init "leaderboard" 30)))))
    (fst (LeaderboardToken.request_token "A" 1
       (fst (LeaderboardToken.request_token "A" 0
          LeaderboardToken.init)))))
    as ((Htm & _) & (Hrs & _) & Hlt).
  - do 2 apply TokenManager.reach_request. apply TokenManager.reach_init.
  - do 2 apply RaymondServer.reach_request. apply RaymondServer.reach_init.
  - do 2 apply LeaderboardToken.reach_request.
    apply LeaderboardToken.reach_init.
  - exact (conj Htm (conj Hrs Hlt)).
Defined.

(** C5, the claim as stated fails for LeaderboardToken: a holder that
    requests again is appended to the queue while it still holds the
    token. *)
Lemma leaderboard_holder_queued :
  let s := fst (LeaderboardToken.request_token "A" 1
             (fst (LeaderboardToken.request_token "A" 0
                LeaderboardToken.init))) in
  LeaderboardToken.reachable s
  /\ LeaderboardToken.current_holder s = Some "A"
  /\ LeaderboardToken.queue s = ["A"].
Proof.
  split; [do 2 apply LeaderboardToken.reach_request;
          apply LeaderboardToken.reach_init|].
  split; reflexivity.
Qed.

(** ** TokenManager: forced release against ordinary release *)

Section TokenManagerForce.
Import TokenManager.

(** On reachable states a successful release leaves the cooldown it has
    just recorded for the releasing holder in place. *)
Lemma release_token_records_cooldown name duration s h now :
  reachable name duration s -> token_holder s = Some h ->
  cooldowns (fst (release_token h now s)) !! h
    = Some (now + cooldown_duration s)%Q
  /\ fst (snd (release_token h now s)) = true.
Proof.
  intros Hwf%reachable_wf Hh. unfold release_token.
  rewrite bool_decide_eq_true_2 by done.
  rewrite drain_no_cooldown; last first.
  { intros x Hx. rewrite lookup_insert_ne.
    - by apply (wf_queue_no_cooldown s Hwf).
    - intros ->. by apply (wf_holder_not_queued s Hwf x). }
  destruct (truthy_opt _); simpl; by rewrite lookup_insert_eq.
Qed.





End TokenManagerForce.

(** ** TokenManager: whom a release promotes *)

Section TokenManagerRelease.
Import TokenManager.

(** The behaviour described for a release by the holder [h]: the queued
    clients in front that are within an unexpired cooldown are popped and
    evicted from the pending set, and the first client [c] behind them
    becomes the holder at instant [now], provided [c] is not the empty
    string. *)
Lemma release_token_promotes s h now skipped c rest :
  token_holder s = Some h -> h ∉ request_queue s ->
  request_queue s = skipped ++ c :: rest ->
  Forall (fun x => exists u, cooldowns s !! x = Some u /\ (now < u)%Q) skipped ->
  (forall u, cooldowns s !! c = Some u -> (u <= now)%Q) ->
  c ≠ "" ->
  release_token h now s =
    (mk (resource_name s) (Some c) rest (Some now)
        (delete c (<[h:=(now + cooldown_duration s)%Q]> (cooldowns s)))
        (cooldown_duration s)
        (pending_requests s ∖ {[h]} ∖ list_to_set skipped),
     (true, Some c)).
Proof.
  intros Hh Hq Hqueue Hsk Hc Hne. unfold release_token.
  rewrite bool_decide_eq_true_2 by done. rewrite Hqueue in *.
  apply not_elem_of_app in Hq as [Hq1 Hq2].
  apply not_elem_of_cons in Hq2 as [Hhc _].
  rewrite drain_skip; [|done|]; last first.
  { apply Forall_forall. intros x Hx.
    rewrite Forall_forall in Hsk. destruct (Hsk x Hx) as (u & Hu & Hlt).
    exists u. split; [|done]. rewrite lookup_insert_ne; [done|].
    intros ->. done. }
  rewrite drain_take; [|done|done|].
  - simpl. apply truthy_true in Hne. by rewrite Hne.
  - intros u. rewrite lookup_insert_ne by done. apply Hc.
Qed.

(** When every queued client is within an unexpired cooldown the queue is
    emptied and the token becomes free. *)
Lemma release_token_frees s h now :
  token_holder s = Some h -> h ∉ request_queue s ->
  Forall (fun x => exists u, cooldowns s !! x = Some u /\ (now < u)%Q)
         (request_queue s) ->
  release_token h now s =
    (mk (resource_name s) None [] None
        (<[h:=(now + cooldown_duration s)%Q]> (cooldowns s))
        (cooldown_duration s)
        (pending_requests s ∖ {[h]} ∖ list_to_set (request_queue s)),
     (true, None)).
Proof.
  intros Hh Hq Hsk. unfold release_token.
  rewrite bool_decide_eq_true_2 by done.
  rewrite <- (app_nil_r (request_queue s)) at 1.
  rewrite drain_skip; [done|done|].
  apply Forall_forall. intros x Hx.
  rewrite Forall_forall in Hsk. destruct (Hsk x Hx) as (u & Hu & Hlt).
  exists u. split; [|done]. rewrite lookup_insert_ne; [done|].
  intros ->. done.
Qed.

(** C4: [release_token] by the holder does not promote a front client
    whose identity is the empty string, although that client is not in
    any cooldown.  With "" alone in the queue the token becomes free,
    while the call still reports "" as the next holder and "" stays in
    the pending set; with B queued behind "", "" is dropped and B is
    promoted. *)
Theorem release_token_drops_empty_identity :
  (let s := fst (request_token "" 1
              (fst (request_token "A" 0 (init "hint" 30)))) in
   reachable "hint" 30 s
   /\ token_holder s = Some "A" /\ request_queue s = [""]
   /\ cooldowns s !! "" = None
   /\ snd (release_token "A" 2 s) = (true, Some "")
   /\ token_holder (fst (release_token "A" 2 s)) = None
   /\ request_queue (fst (release_token "A" 2 s)) = []
   /\ ("" ∈ pending_requests (fst (release_token "A" 2 s))))
  /\ (let s := fst (request_token "B" 2 (fst (request_token "" 1
                 (fst (request_token "A" 0 (init "hint" 30)))))) in
      reachable "hint" 30 s
      /\ token_holder s = Some "A" /\ request_queue s = [""; "B"]
      /\ cooldowns s !! "" = None
      /\ snd (release_token "A" 3 s) = (true, Some "B")
      /\ token_holder (fst (release_token "A" 3 s)) = Some "B"
      /\ request_queue (fst (release_token "A" 3 s)) = []).
Proof.
  split.
  - split; [do 2 apply reach_request; apply reach_init|].
    repeat (split; [vm_compute; reflexivity|]).
    by_evaluation.
  - split; [do 3 apply reach_request; apply reach_init|].
    repeat (split; [vm_compute; reflexivity|]). vm_compute; reflexivity.
Qed.

End TokenManagerRelease.

(** ** DeadlockDetector *)

Section DeadlockDetectorClaims.
Import TokenManager DeadlockDetector.

Lemma status_holder (s : TokenManager.t) :
  dict_holder (get_status s) "holder" = token_holder s.
Proof.
  unfold dict_holder, get_status.
  rewrite lookup_insert_ne by done. rewrite lookup_insert_eq.
  by destruct (token_holder s).
Qed.

Lemma status_queue (s : TokenManager.t) :
  dict_queue (get_status s) "queue" = request_queue s.
Proof.
  unfold dict_queue, get_status.
  do 2 rewrite lookup_insert_ne by done. by rewrite lookup_insert_eq.
Qed.

(** C2: [check_for_deadlocks] returns true exactly when both holders are
    set, the hint holder is in the skip queue and the skip holder is in
    the hint queue.  When it returns true (the hint manager being in a
    reachable state), the resolution leaves the skip manager alone and
    makes the front client of the hint queue the hint holder ([None] for
    an empty queue), which is not the original hint holder; when it
    returns false nothing changes. *)
Theorem check_for_deadlocks_spec (d : DeadlockDetector.t) (now : Q) :
  (snd (check_for_deadlocks now d) = true <->
     exists hint_holder skip_holder,
       token_holder (hint_token_manager d) = Some hint_holder
       /\ token_holder (skip_token_manager d) = Some skip_holder
       /\ hint_holder ∈ request_queue (skip_token_manager d)
       /\ skip_holder ∈ request_queue (hint_token_manager d))
  /\ (snd (check_for_deadlocks now d) = false ->
      fst (check_for_deadlocks now d) = d)
  /\ (forall name duration,
        reachable name duration (hint_token_manager d) ->
        snd (check_for_deadlocks now d) = true ->
        let d' := fst (check_for_deadlocks now d) in
        token_holder (hint_token_manager d')
          = head (request_queue (hint_token_manager d))
        /\ request_queue (hint_token_manager d')
          = tail (request_queue (hint_token_manager d))
        /\ token_holder (hint_token_manager d')
          ≠ token_holder (hint_token_manager d)
        /\ cooldowns (hint_token_manager d')
          = cooldowns (hint_token_manager d)
        /\ skip_token_manager d' = skip_token_manager d).
Proof.
  unfold check_for_deadlocks. rewrite !status_holder, !status_queue.
  destruct (token_holder (hint_token_manager d)) as [hh|] eqn:Hhh; last first.
  { split; [|split]; [|done|done].
    split; [done | intros (? & ? & ? & _); done]. }
  destruct (token_holder (skip_token_manager d)) as [sh|] eqn:Hsh; last first.
  { split; [|split]; [|done|done].
    split; [done | intros (? & ? & _ & ? & _); done]. }
  destruct (bool_decide (hh ∈ request_queue (skip_token_manager d))) eqn:H1;
    [apply bool_decide_eq_true in H1 | apply bool_decide_eq_false in H1];
    last first.
  { split; [|split]; [|done|done].
    split; [done | intros (x & y & [= <-] & [= <-] & ? & _); done]. }
  destruct (bool_decide (sh ∈ request_queue (hint_token_manager d))) eqn:H2;
    [apply bool_decide_eq_true in H2 | apply bool_decide_eq_false in H2];
    last first.
  { split; [|split]; [|done|done].
    split; [done | intros (x & y & [= <-] & [= <-] & _ & ?); done]. }
  simpl. split; [|split]; [|done|].
  - split; [intros _; by exists hh, sh | done].
  - intros name duration Hwf%reachable_wf _.
    pose proof (wf_holder_not_queued _ Hwf hh Hhh) as Hq.
    unfold _resolve_deadlock, force_release_token.
    destruct (request_queue (hint_token_manager d)) as [|c rest]; simpl.
    + by apply elem_of_nil in H2.
    + repeat split; try done. intros [= ->]. apply Hq, list_elem_of_here.
Qed.

Lemma check_for_deadlocks_spec_witness :
  let d := DeadlockDetector.mk
             (fst (request_token "B" 1
                (fst (request_token "A" 0 (init "hint" 30)))))
             (fst (request_token "A" 3
                (fst (request_token "B" 2 (init "skip" 30))))) in
  reachable "hint" 30 (hint_token_manager d)
  /\ snd (check_for_deadlocks 4 d) = true
  /\ token_holder (hint_token_manager (fst (check_for_deadlocks 4 d)))
     = Some "B".
Proof.
  intros d.
  assert (Hreach : reachable "hint" 30 (hint_token_manager d))
    by (do 2 apply reach_request; apply reach_init).
  destruct (check_for_deadlocks_spec d 4) as (Hiff & _ & Hres).
  assert (Htrue : snd (check_for_deadlocks 4 d) = true).
  { apply Hiff. exists "A", "B".
    split; [reflexivity|]. split; [reflexivity|].
    split; by_evaluation. }
  destruct (Hres "hint" 30%Q Hreach Htrue) as (Hholder & _).
  split; [exact Hreach|]. split; [exact Htrue | exact Hholder].
Defined.

End DeadlockDetectorClaims.

(** ** The offset estimators *)

(** C6: for the server's [synchronize] and the client's
    [process_sync_response] (where [t1] is the stored request instant),
    with [delay = (t4 - t1) - (t3 - t2)]: if [0 < delay < 5] the stored
    offset becomes [((t2 - t1) + (t3 - t4)) / 2] and the reference
    instant becomes the fresh clock reading; if [delay <= 0] or
    [delay >= 5] the state is unchanged; in both cases the stored offset
    is returned. *)
Theorem offset_estimator_spec (t1 t2 t3 t4 now : Q)
    (srv : NetworkTimeProtocol.t) (cl : NetworkTimeClient.t) :
  NetworkTimeClient.last_sync_time cl = t1 ->
  let delay := ((t4 - t1) - (t3 - t2))%Q in
  let estimate := (((t2 - t1) + (t3 - t4)) / 2)%Q in
  let r := NetworkTimeProtocol.synchronize t1 t2 t3 t4 now srv in
  let r' := NetworkTimeClient.process_sync_response t2 t3 t4 now cl in
  ((0 < delay)%Q /\ (delay < 5)%Q ->
     fst r = NetworkTimeProtocol.mk estimate now
     /\ fst r' = NetworkTimeClient.mk estimate now t1)
  /\ ((delay <= 0)%Q \/ (5 <= delay)%Q -> fst r = srv /\ fst r' = cl)
  /\ snd r = NetworkTimeProtocol.offset (fst r)
  /\ snd r' = NetworkTimeClient.offset (fst r').
Proof.
  intros Ht1 delay estimate r r'. subst r r' t1.
  unfold NetworkTimeProtocol.synchronize,
    NetworkTimeClient.process_sync_response.
  fold delay estimate.
  destruct (Qltb 0 delay) eqn:H0; destruct (Qltb delay 5) eqn:H5; simpl;
    (split; [|split; [|done]]);
    try (apply Qltb_ge in H0); try (apply Qltb_ge in H5);
    try (apply Qltb_lt in H0); try (apply Qltb_lt in H5).
  - done.
  - intros [Hle | Hle]; exfalso;
      [apply (Qlt_not_le _ _ H0 Hle) | apply (Qlt_not_le _ _ H5 Hle)].
  - intros [_ Hlt]. exfalso. apply (Qlt_not_le _ _ Hlt H5).
  - done.
  - intros [Hlt _]. exfalso. apply (Qlt_not_le _ _ Hlt H0).
  - done.
  - intros [Hlt _]. exfalso. apply (Qlt_not_le _ _ Hlt H0).
  - done.
Qed.

Lemma offset_estimator_spec_witness :
  fst (NetworkTimeProtocol.synchronize 0 1 2 3 10
         (NetworkTimeProtocol.init 0))
    = NetworkTimeProtocol.mk (((1 - 0) + (2 - 3)) / 2) 10
  /\ fst (NetworkTimeProtocol.synchronize 0 1 2 9 10
            (NetworkTimeProtocol.init 0))
    = NetworkTimeProtocol.init 0.
Proof.
  split.
  - apply (offset_estimator_spec 0 1 2 3 10 (NetworkTimeProtocol.init 0)
             (NetworkTimeClient.init 0) eq_refl).
    split; reflexivity.
  - apply (offset_estimator_spec 0 1 2 9 10 (NetworkTimeProtocol.init 0)
             (NetworkTimeClient.init 0) eq_refl).
    right. vm_compute. discriminate.
Defined.

(** ** TimeWarpManager *)

Section TimeWarpManagerClaims.
Import TimeWarpManager.


Lemma set_lock_free s : lock s = false -> set_lock false (set_lock true s) = s.
Proof. destruct s. simpl. by intros ->. Qed.

(** A method body that does not touch the lock runs to completion when
    the lock is free. *)
Lemma with_lock_free {A : Type} (body : t -> outcome A) s s' a :
  lock s = false ->
  body (set_lock true s) = Returned s' a ->
  with_lock body s = Returned (set_lock false s') a.
Proof. intros Hl Hb. unfold with_lock. by rewrite Hl, Hb. Qed.




End TimeWarpManagerClaims.

(** ** Timer callbacks and the non-reentrant lock *)

Section TimerCallbacks.

(** The callback of the timer-based critical section: a stale timer (the
    section is held by somebody else, or under another timestamp) leaves
    the state as it is. *)
Lemma auto_release_stale client_id timestamp now (s : RicartAgrawala.t) :
  ~ (RicartAgrawala.in_critical_section s = Some client_id
     /\ RicartAgrawala.cs_timestamp s = Some timestamp) ->
  RicartAgrawala._auto_release_critical_section client_id timestamp now s = s.
Proof.
  intros Hstale. unfold RicartAgrawala._auto_release_critical_section.
  destruct (bool_decide _) eqn:H1; [|done].
  destruct (bool_decide (RicartAgrawala.cs_timestamp s = _)) eqn:H2; [|done].
  apply bool_decide_eq_true in H1, H2. exfalso. by apply Hstale.
Qed.

(** A timer that still matches the session performs the same release as
    [release_critical_section]. *)
Lemma auto_release_current client_id timestamp now (s : RicartAgrawala.t) :
  RicartAgrawala.in_critical_section s = Some client_id ->
  RicartAgrawala.cs_timestamp s = Some timestamp ->
  RicartAgrawala._auto_release_critical_section client_id timestamp now s
    = fst (RicartAgrawala.release_critical_section client_id now s)
  /\ RicartAgrawala.in_critical_section
       (RicartAgrawala._auto_release_critical_section
          client_id timestamp now s) = None
  /\ RicartAgrawala.cooldowns
       (RicartAgrawala._auto_release_critical_section
          client_id timestamp now s) !! client_id
     = Some (now + RicartAgrawala.cooldown_duration s)%Q.
Proof.
  intros Hc Hts.
  unfold RicartAgrawala._auto_release_critical_section,
    RicartAgrawala.release_critical_section.
  rewrite !bool_decide_eq_true_2 by done. simpl.
  split; [done|]. split; [done|]. by rewrite lookup_insert_eq.
Qed.

(** The grant starts a timer for the granted client and timestamp. *)
Lemma grant_starts_timer client_id timestamp now (s : RicartAgrawala.t) :
  RicartAgrawala.timers (fst (RicartAgrawala.grant client_id timestamp now s))
    = RicartAgrawala.timers s ++ [(client_id, timestamp)]
  /\ RicartAgrawala.in_critical_section
       (fst (RicartAgrawala.grant client_id timestamp now s)) = Some client_id
  /\ RicartAgrawala.cs_timestamp
       (fst (RicartAgrawala.grant client_id timestamp now s)) = Some timestamp.
Proof. done. Qed.

Import TimeWarpManager.

(** The callback of TimeWarpManager: a stale timer returns and leaves the
    state as it is. *)
Lemma auto_deactivate_stale client_id expected now s :
  lock s = false ->
  (forall st e, active_warps s !! client_id = Some (st, e) ->
                Qeq_bool e expected = false) ->
  _auto_deactivate_time_warp client_id expected now s = Returned s tt.
Proof.
  intros Hlock Hstale. unfold _auto_deactivate_time_warp.
  rewrite <- (set_lock_free s Hlock) at 2.
  apply with_lock_free; [done|]. simpl.
  destruct (active_warps s !! client_id) as [[st e]|] eqn:Ha; [|done].
  by rewrite (Hstale st e).
Qed.

(** A method that is entered with the lock free and then calls
    [deactivate_time_warp] never returns: the nested [with self.lock:]
    waits for the lock its own thread holds. *)
Lemma deactivate_under_lock client_id now s :
  deactivate_time_warp client_id now (set_lock true s)
    = Blocked (set_lock true s).
Proof. done. Qed.

(** A timer that still matches its session blocks for ever; the session
    stays active, no cooldown is recorded and the lock stays held. *)
Lemma auto_deactivate_current_blocks client_id expected now s st e :
  lock s = false ->
  active_warps s !! client_id = Some (st, e) ->
  Qeq_bool e expected = true ->
  _auto_deactivate_time_warp client_id expected now s
    = Blocked (set_lock true s).
Proof.
  intros Hlock Ha He. unfold _auto_deactivate_time_warp, with_lock.
  rewrite Hlock. simpl. by rewrite Ha, He.
Qed.

(** [is_time_warp_active] blocks for ever on a session that has ended. *)
Lemma is_time_warp_active_expired_blocks client_id now t_cleanup s st e :
  lock s = false ->
  active_warps s !! client_id = Some (st, e) ->
  (e <= now)%Q ->
  is_time_warp_active client_id now t_cleanup s = Blocked (set_lock true s).
Proof.
  intros Hlock Ha He. unfold is_time_warp_active, with_lock.
  rewrite Hlock. simpl. rewrite Ha.
  apply Qltb_ge in He. by rewrite He.
Qed.

(** Once the lock is held for ever, every method blocks. *)
Lemma with_lock_held {A : Type} (body : t -> outcome A) s :
  lock s = true -> with_lock body s = Blocked s.
Proof. intros Hl. unfold with_lock. by rewrite Hl. Qed.

(** C7: the timer that [activate_time_warp] starts for client X and end
    instant 90 fires at instant 90 while the session it was started for
    is still the recorded one.  The callback does not deactivate the
    session: it blocks in the nested [with self.lock:] of
    [deactivate_time_warp]; the session stays in [active_warps], no
    cooldown is recorded and the lock is never released. *)
Theorem auto_deactivate_time_warp_blocks :
  let s := mk 90 120 {["X" := (0, 0 + 90)%Q]} ∅ false
              [("X", (0 + 90)%Q)] in
  activate_time_warp "X" 0 (init 90 120) = Returned s (true, 90%Q, Activated)
  /\ _auto_deactivate_time_warp "X" (0 + 90) 90 s = Blocked (set_lock true s)
  /\ active_warps (set_lock true s) !! "X" = Some (0, 0 + 90)%Q
  /\ cooldowns (set_lock true s) !! "X" = None
  /\ lock (set_lock true s) = true.
Proof.
  intros s. split; [vm_compute; reflexivity|].
  split; [|done].
  by apply (auto_deactivate_current_blocks "X" _ _ s 0 (0 + 90)).
Qed.

(** C3: [is_time_warp_active], a public operation, does not return for a
    client whose session has ended: it blocks in the nested
    [with self.lock:] of [deactivate_time_warp], and so does
    [get_score_multiplier].  Afterwards the lock is held for ever and
    every operation of the manager blocks on entry, here the same query
    again and an activation by another client. *)
Theorem is_time_warp_active_blocks :
  let s := mk 90 120 {["X" := (0, 0 + 90)%Q]} ∅ false
              [("X", (0 + 90)%Q)] in
  activate_time_warp "X" 0 (init 90 120) = Returned s (true, 90%Q, Activated)
  /\ is_time_warp_active "X" 95 95 s = Blocked (set_lock true s)
  /\ get_score_multiplier "X" 95 95 s = Blocked (set_lock true s)
  /\ is_time_warp_active "X" 96 96 (set_lock true s)
     = Blocked (set_lock true s)
  /\ activate_time_warp "Y" 96 (set_lock true s) = Blocked (set_lock true s).
Proof.
  intros s. split; [vm_compute; reflexivity|].
  assert (Hb : is_time_warp_active "X" 95 95 s = Blocked (set_lock true s))
    by by apply (is_time_warp_active_expired_blocks "X" _ _ s 0 (0 + 90)).
  split; [exact Hb|]. split; [|split].
  - unfold get_score_multiplier. by rewrite Hb.
  - by apply with_lock_held.
  - by apply with_lock_held.
Qed.

End TimerCallbacks.

(** ** Status snapshots of the leaderboard managers *)

(** C9, as amended: [RaymondServer.get_status] returns, for every state,
    the dictionary with exactly the keys resource, holder, queue and
    queue_length, holding the resource name, the current holder, the
    ordered queue and its length.  [LeaderboardToken.get_status] returns
    the dictionary with exactly the keys has_token, current_holder and
    queue: it reports the holder and the ordered queue, but neither a
    resource name nor a queue length. *)
Theorem leaderboard_status_shapes
    (rs : RaymondServer.t) (lt : LeaderboardToken.t) :
  (dom (RaymondServer.get_status rs)
     = ({["resource"; "holder"; "queue"; "queue_length"]} : gset string)
   /\ RaymondServer.get_status rs !! "resource"
      = Some (PyStr (RaymondServer.resource_name rs))
   /\ RaymondServer.get_status rs !! "holder"
      = Some (py_opt_str (RaymondServer.current_holder rs))
   /\ RaymondServer.get_status rs !! "queue"
      = Some (PyList (RaymondServer.queue rs))
   /\ RaymondServer.get_status rs !! "queue_length"
      = Some (PyInt (Z.of_nat (length (RaymondServer.queue rs)))))
  /\ (dom (LeaderboardToken.get_status lt)
        = ({["has_token"; "current_holder"; "queue"]} : gset string)
      /\ LeaderboardToken.get_status lt !! "has_token"
         = Some (PyBool (LeaderboardToken.has_token lt))
      /\ LeaderboardToken.get_status lt !! "current_holder"
         = Some (py_opt_str (LeaderboardToken.current_holder lt))
      /\ LeaderboardToken.get_status lt !! "queue"
         = Some (PyList (LeaderboardToken.queue lt))).
Proof.
  unfold RaymondServer.get_status, LeaderboardToken.get_status.
  split.
  - split; [rewrite !dom_insert_L, dom_empty_L; set_solver|].
    rewrite lookup_insert_eq.
    rewrite lookup_insert_ne, lookup_insert_eq by done.
    rewrite !lookup_insert_ne, lookup_insert_eq by done.
    rewrite !lookup_insert_ne, lookup_insert_eq by done.
    done.
  - split; [rewrite !dom_insert_L, dom_empty_L; set_solver|].
    rewrite lookup_insert_eq.
    rewrite lookup_insert_ne, lookup_insert_eq by done.
    rewrite !lookup_insert_ne, lookup_insert_eq by done.
    done.
Qed.

(** C9, the claim as stated fails: the status of a LeaderboardToken has
    no entry for the resource name, none for the queue length, and none
    under the key holder. *)
Lemma leaderboard_status_lacks_entries :
  LeaderboardToken.get_status LeaderboardToken.init !! "resource" = None
  /\ LeaderboardToken.get_status LeaderboardToken.init !! "queue_length" = None
  /\ LeaderboardToken.get_status LeaderboardToken.init !! "holder" = None
  /\ RaymondServer.get_status (RaymondServer.init "leaderboard" 30)
       !! "resource" = Some (PyStr "leaderboard")
  /\ RaymondServer.get_status (RaymondServer.init "leaderboard" 30)
       !! "queue_length" = Some (PyInt 0).
Proof. repeat split; vm_compute; reflexivity. Qed.

(** ** The timer-based critical section returns its tuple *)

(** The timer-based critical section: [request_critical_section] returns
    its tuple whenever an occupied section has its start instant set,
    as it has after every grant. *)
Lemma timer_request_returns client_id timestamp t1 t2 t3 t4
    (s : RicartAgrawala.t) :
  (RicartAgrawala.in_critical_section s ≠ None ->
   RicartAgrawala.cs_start_time s ≠ None) ->
  exists r,
    snd (RicartAgrawala.request_critical_section
           client_id timestamp t1 t2 t3 t4 s) = Return r.
Proof.
  intros Hstart.
  assert (Hchecked : exists r,
    snd (RicartAgrawala.request_checked client_id timestamp t2 t3 t4 s)
      = Return r).
  { unfold RicartAgrawala.request_checked.
    destruct (RicartAgrawala.in_critical_section s) as [holder|];
      [|by eexists].
    destruct (truthy holder); [|by eexists].
    destruct (RicartAgrawala.holder_expired t2 s); [by eexists|].
    destruct (RicartAgrawala.cs_start_time s); [by eexists|].
    by destruct Hstart. }
  unfold RicartAgrawala.request_critical_section.
  destruct (RicartAgrawala.cooldowns s !! client_id) as [u|]; [|done].
  destruct (Qltb t1 u); [by eexists | done].
Qed.

(** * Further properties of the code *)

(** ** TokenManager: requests *)

Section TokenManagerRequests.
Import TokenManager.

Lemma find_position_lookup (c : string) (q : list string) (i : nat) :
  NoDup q -> q !! i = Some c -> find_position c q = Some i.
Proof.
  revert i. induction q as [|x q IH]; intros i Hnd Hi; [done|].
  apply NoDup_cons in Hnd as [Hx Hnd]. simpl.
  destruct i as [|i]; simpl in Hi.
  - injection Hi as ->. by rewrite String.eqb_refl.
  - destruct (String.eqb_spec x c) as [->|Hne].
    + exfalso. apply Hx. by eapply list_elem_of_lookup_2.
    + by rewrite (IH i).
Qed.

(** Neither the holder nor a promoted client carries a cooldown entry. *)
Lemma holder_no_cooldown name duration s :
  reachable name duration s ->
  forall h, token_holder s = Some h -> cooldowns s !! h = None.
Proof.
  induction 1 as [|c now s Hr IH|c now s Hr IH|now s Hr IH|c now s Hr IH];
    intros h; pose proof I as Hwf; try (apply reachable_wf in Hr as Hwf').
  - done.
  - assert (Hstep : forall s1, wf s1 ->
      (forall h, token_holder s1 = Some h -> cooldowns s1 !! h = None) ->
      cooldowns s1 !! c = None ->
      token_holder (fst (request_pending c now s1)) = Some h ->
      cooldowns (fst (request_pending c now s1)) !! h = None).
    { intros s1 Hwf1 Hh1 Hc1. unfold request_pending, grant_or_enqueue.
      destruct (bool_decide (c ∈ pending_requests s1));
        [destruct (find_position c (request_queue s1));
           [by apply Hh1|];
         destruct (bool_decide (token_holder s1 = Some c));
           [by apply Hh1|]|];
        (destruct (token_holder s1) as [h1|] eqn:Hh;
           [simpl; by apply Hh1|];
         destruct (request_queue s1); simpl;
           [by intros [= <-] | done]). }
    unfold request_token.
    destruct (cooldowns s !! c) as [u|] eqn:Hcd.
    + destruct (Qltb now u); [by apply IH|].
      apply Hstep.
      * by apply wf_set_cooldowns_delete.
      * simpl. intros h' Hh'. apply lookup_delete_None. right. by apply IH.
      * simpl. apply lookup_delete_eq.
    + by apply Hstep.
  - unfold release_token.
    destruct (bool_decide (token_holder s = Some c)) eqn:Hc; [|by apply IH].
    apply bool_decide_eq_true in Hc.
    pose proof (wf_holder_not_queued s Hwf' c Hc) as Hcq.
    rewrite drain_no_cooldown; last first.
    { intros x Hx. rewrite lookup_insert_ne;
        [by apply (wf_queue_no_cooldown s Hwf') | by intros ->]. }
    destruct (pop_until_truthy_spec (request_queue s) None)
      as (popped & Hq & Hnext & _).
    destruct (pop_until_truthy (request_queue s) None) as [q' next'].
    simpl in *. destruct (truthy_opt next'); simpl; [|done].
    destruct Hnext as [-> | (x & -> & Hx)]; [done|].
    intros [= <-].
    assert (x ∈ request_queue s) as Hin
      by (rewrite Hq; apply elem_of_app; by left).
    rewrite lookup_insert_ne; [by apply (wf_queue_no_cooldown s Hwf')|].
    by intros ->.
  - unfold force_release_token.
    pose proof (wf_queue_no_cooldown s Hwf') as Hq.
    destruct (request_queue s) as [|x rest]; simpl; [done|].
    intros [= <-]. apply Hq, list_elem_of_here.
  - unfold is_in_cooldown.
    destruct (cooldowns s !! c) as [u|]; [|by apply IH].
    destruct (Qltb now u); [by apply IH|]. simpl.
    intros Hh. apply lookup_delete_None. right. by apply IH.
Qed.

(** X1: in every reachable state the holder and every queued client are
    in the pending set and have no cooldown entry; the cooldown test in
    the loop of [release_token] therefore never finds an entry. *)
Theorem waiters_pending_without_cooldown name duration s c :
  reachable name duration s ->
  token_holder s = Some c \/ c ∈ request_queue s ->
  cooldowns s !! c = None /\ c ∈ pending_requests s.
Proof.
  intros Hr Hc. pose proof (reachable_wf _ _ _ Hr) as Hwf.
  destruct Hc as [Hh | Hq].
  - split; [by eapply holder_no_cooldown | by apply (wf_holder_pending s Hwf)].
  - split; [by apply (wf_queue_no_cooldown s Hwf)
           | by apply (wf_queue_pending s Hwf)].
Qed.

Lemma waiters_pending_without_cooldown_witness :
  let s := fst (release_token "A" 2 (fst (request_token "B" 1
             (fst (request_token "A" 0 (init "hint" 30)))))) in
  token_holder s = Some "B"
  /\ cooldowns s !! "B" = None /\ "B" ∈ pending_requests s.
Proof.
  intros s. split; [reflexivity|].
  apply (waiters_pending_without_cooldown "hint" 30 s "B").
  - apply reach_release. do 2 apply reach_request. apply reach_init.
  - left. reflexivity.
Defined.

(** X2: a repeated request changes nothing: the holder is told it holds
    the token, a queued client is told its index in the queue. *)
Theorem request_token_repeated name duration s now :
  reachable name duration s ->
  (forall h, token_holder s = Some h ->
     request_token h now s = (s, (true, 0%Z, 0%Z)))
  /\ (forall i c, request_queue s !! i = Some c ->
        request_token c now s
          = (s, (false, Z.of_nat i, (Z.of_nat i * 5)%Z))).
Proof.
  intros Hr. pose proof (reachable_wf _ _ _ Hr) as Hwf. split.
  - intros h Hh. unfold request_token, request_pending.
    rewrite (holder_no_cooldown _ _ _ Hr h Hh).
    rewrite bool_decide_eq_true_2 by by apply (wf_holder_pending s Hwf).
    assert (find_position h (request_queue s) = None) as ->
      by by apply find_position_None, (wf_holder_not_queued s Hwf).
    by rewrite bool_decide_eq_true_2.
  - intros i c Hi. unfold request_token, request_pending.
    assert (c ∈ request_queue s) as Hc by by eapply list_elem_of_lookup_2.
    rewrite (wf_queue_no_cooldown s Hwf c Hc).
    rewrite bool_decide_eq_true_2 by by apply (wf_queue_pending s Hwf).
    by rewrite (find_position_lookup c _ i (wf_nodup s Hwf) Hi).
Qed.

Lemma request_token_repeated_witness :
  let s := fst (request_token "C" 2 (fst (request_token "B" 1
             (fst (request_token "A" 0 (init "hint" 30)))))) in
  request_token "A" 9 s = (s, (true, 0%Z, 0%Z))
  /\ request_token "C" 9 s = (s, (false, 1%Z, 5%Z)).
Proof.
  intros s.
  destruct (request_token_repeated "hint" 30 s 9) as [Hholder Hqueued].
  - do 3 apply reach_request. apply reach_init.
  - split; [by apply Hholder | by apply (Hqueued 1%nat "C")].
Defined.

(** X3: while the token is held, the first request of a client that is
    not cooling down appends it to the queue and reports the index it
    now has there, which is the former length of the queue. *)
Theorem request_token_enqueues name duration s h c now :
  reachable name duration s ->
  token_holder s = Some h -> c ≠ h -> c ∉ request_queue s ->
  (forall u, cooldowns s !! c = Some u -> (u <= now)%Q) ->
  let n := length (request_queue s) in
  snd (request_token c now s) = (false, Z.of_nat n, (Z.of_nat n * 5)%Z)
  /\ request_queue (fst (request_token c now s)) = request_queue s ++ [c]
  /\ request_queue (fst (request_token c now s)) !! n = Some c
  /\ token_holder (fst (request_token c now s)) = Some h.
Proof.
  intros Hr Hh Hne Hq Hcd n.
  assert (Hpending : forall cd,
    request_pending c now (set_cooldowns cd s)
      = (mk (resource_name s) (Some h) (request_queue s ++ [c])
            (token_acquired_time s) cd (cooldown_duration s)
            ({[c]} ∪ pending_requests s),
         (false, Z.of_nat n, (Z.of_nat n * 5)%Z))).
  { intros cd. unfold request_pending, grant_or_enqueue. simpl.
    apply find_position_None in Hq. rewrite Hq, Hh.
    rewrite (bool_decide_eq_false_2 (Some h = Some c)) by congruence.
    assert ((Z.of_nat (length (request_queue s ++ [c])) - 1)%Z = Z.of_nat n)
      as -> by (rewrite length_app; simpl; lia).
    by destruct (bool_decide (c ∈ pending_requests s)). }
  assert (Hres : exists cd, request_token c now s
      = (mk (resource_name s) (Some h) (request_queue s ++ [c])
            (token_acquired_time s) cd (cooldown_duration s)
            ({[c]} ∪ pending_requests s),
         (false, Z.of_nat n, (Z.of_nat n * 5)%Z))).
  { unfold request_token. destruct (cooldowns s !! c) as [u|] eqn:Hu.
    - specialize (Hcd u eq_refl). apply Qltb_ge in Hcd. rewrite Hcd.
      eexists. apply Hpending.
    - exists (cooldowns s). rewrite <- Hpending. by destruct s. }
  destruct Hres as (cd & ->). simpl.
  repeat split; try done.
  rewrite lookup_app_r by done. by rewrite Nat.sub_diag.
Qed.

Lemma request_token_enqueues_witness :
  let s := fst (request_token "B" 1
             (fst (request_token "A" 0 (init "hint" 30)))) in
  snd (request_token "C" 2 s) = (false, 1%Z, 5%Z)
  /\ request_queue (fst (request_token "C" 2 s)) = ["B"; "C"].
Proof.
  intros s.
  destruct (request_token_enqueues "hint" 30 s "A" "C" 2)
    as (Hret & Hqueue & _).
  - do 2 apply reach_request. apply reach_init.
  - reflexivity.
  - discriminate.
  - apply (bool_decide_unpack _). vm_compute. exact I.
  - intros u Hu. vm_compute in Hu. discriminate Hu.
  - split; [exact Hret | exact Hqueue].
Defined.

End TokenManagerRequests.

(** ** TokenManager: releases *)

Section TokenManagerReleases.
Import TokenManager.

(** On a reachable state the release loop takes the front client. *)
Lemma release_token_front name duration s h c rest now :
  reachable name duration s ->
  token_holder s = Some h -> request_queue s = c :: rest -> c ≠ "" ->
  release_token h now s =
    (mk (resource_name s) (Some c) rest (Some now)
        (<[h:=(now + cooldown_duration s)%Q]> (cooldowns s))
        (cooldown_duration s) (pending_requests s ∖ {[h]}),
     (true, Some c)).
Proof.
  intros Hr Hh Hq Hc. pose proof (reachable_wf _ _ _ Hr) as Hwf.
  assert (c ∈ request_queue s) as Hin by (rewrite Hq; apply list_elem_of_here).
  assert (h ≠ c) as Hhc.
  { intros ->. by apply (wf_holder_not_queued s Hwf c). }
  rewrite (release_token_promotes s h now [] c rest); try done.
  - simpl. rewrite difference_empty_L. rewrite delete_id; [done|].
    rewrite lookup_insert_ne by done. by apply (wf_queue_no_cooldown s Hwf).
  - by apply (wf_holder_not_queued s Hwf).
  - intros u Hu. rewrite (wf_queue_no_cooldown s Hwf c Hin) in Hu. done.
Qed.

(** X4: on a reachable state a release by the holder passes the token to
    the client at the front of the queue (if its identity is not the
    empty string) at the instant of the release; the rest of the queue
    keeps its order, and only the releaser leaves the pending set. *)
Theorem release_token_fifo name duration s h c rest now :
  reachable name duration s ->
  token_holder s = Some h -> request_queue s = c :: rest -> c ≠ "" ->
  snd (release_token h now s) = (true, Some c)
  /\ token_holder (fst (release_token h now s)) = Some c
  /\ token_acquired_time (fst (release_token h now s)) = Some now
  /\ request_queue (fst (release_token h now s)) = rest
  /\ pending_requests (fst (release_token h now s))
     = pending_requests s ∖ {[h]}.
Proof.
  intros Hr Hh Hq Hc.
  by rewrite (release_token_front name duration s h c rest now).
Qed.

Lemma release_token_fifo_witness :
  let s := fst (request_token "C" 2 (fst (request_token "B" 1
             (fst (request_token "A" 0 (init "hint" 30)))))) in
  snd (release_token "A" 3 s) = (true, Some "B")
  /\ request_queue (fst (release_token "A" 3 s)) = ["C"].
Proof.
  intros s.
  destruct (release_token_fifo "hint" 30 s "A" "B" ["C"] 3)
    as (Hret & _ & _ & Hqueue & _).
  - do 3 apply reach_request. apply reach_init.
  - reflexivity.
  - reflexivity.
  - discriminate.
  - split; [exact Hret | exact Hqueue].
Defined.

(** X5: nobody starves: if every queued identity is non-empty, the client
    at index [i] of the queue holds the token after [i + 1] releases,
    each made by the holder of the moment, whatever the clock readings
    of those releases. *)
Theorem releases_serve_queue_in_order name duration s times i c :
  reachable name duration s ->
  token_holder s ≠ None ->
  Forall (fun x => x ≠ "") (request_queue s) ->
  request_queue s !! i = Some c ->
  length times = S i ->
  token_holder (fold_left release_by_holder times s) = Some c.
Proof.
  revert s times. induction i as [|i IH]; intros s times Hr Hh Hne Hi Hlen.
  - destruct times as [|now [|? ?]]; try done. simpl.
    unfold release_by_holder.
    destruct (token_holder s) as [h|] eqn:Hholder; [|done].
    destruct (request_queue s) as [|x rest] eqn:Hq; [done|].
    injection Hi as ->. apply Forall_cons in Hne as [Hc _].
    by rewrite (release_token_front name duration s h c rest now).
  - destruct times as [|now times]; [done|]. simpl.
    destruct (token_holder s) as [h|] eqn:Hholder; [|done].
    destruct (request_queue s) as [|x rest] eqn:Hq; [done|].
    apply Forall_cons in Hne as [Hx Hrest]. simpl in Hi.
    apply IH.
    + unfold release_by_holder. rewrite Hholder. by apply reach_release.
    + unfold release_by_holder. rewrite Hholder.
      by rewrite (release_token_front name duration s h x rest now).
    + unfold release_by_holder. rewrite Hholder.
      by rewrite (release_token_front name duration s h x rest now).
    + unfold release_by_holder. rewrite Hholder.
      by rewrite (release_token_front name duration s h x rest now).
    + simpl in Hlen. lia.
Qed.

Lemma releases_serve_queue_in_order_witness :
  let s := fst (request_token "C" 2 (fst (request_token "B" 1
             (fst (request_token "A" 0 (init "hint" 30)))))) in
  token_holder (fold_left release_by_holder [5%Q; 3%Q] s) = Some "C".
Proof.
  intros s.
  apply (releases_serve_queue_in_order "hint" 30 s [5%Q; 3%Q] 1 "C").
  - do 3 apply reach_request. apply reach_init.
  - discriminate.
  - repeat constructor; discriminate.
  - reflexivity.
  - reflexivity.
Defined.

(** X6: the cooldown is enforced: on a reachable state, after the holder
    has released the token at instant [now], each of its requests before
    [now + cooldown_duration] is refused with position -1 and the whole
    seconds left, and changes nothing. *)
Theorem release_then_request_refused name duration s h now t :
  reachable name duration s ->
  token_holder s = Some h ->
  (t < now + cooldown_duration s)%Q ->
  let s1 := fst (release_token h now s) in
  request_token h t s1
    = (s1, (false, (-1)%Z, py_int (now + cooldown_duration s - t))).
Proof.
  intros Hr Hh Ht s1.
  destruct (release_token_records_cooldown name duration s h now Hr Hh)
    as [Hcd _].
  unfold request_token. subst s1. rewrite Hcd.
  apply Qltb_lt in Ht. by rewrite Ht.
Qed.

Lemma release_then_request_refused_witness :
  let s := fst (request_token "A" 0 (init "hint" 30)) in
  request_token "A" 10 (fst (release_token "A" 2 s))
    = (fst (release_token "A" 2 s),
       (false, (-1)%Z, py_int (2 + 30 - 10))).
Proof.
  intros s.
  apply (release_then_request_refused "hint" 30 s "A" 2 10).
  - apply reach_request. apply reach_init.
  - reflexivity.
  - reflexivity.
Defined.

Lemma request_pending_position c now s :
  (0 <= snd (fst (snd (request_pending c now s))))%Z.
Proof.
  unfold request_pending, grant_or_enqueue.
  assert (0 <= Z.of_nat (length (request_queue s ++ [c])) - 1)%Z
    by (rewrite length_app; simpl; lia).
  destruct (bool_decide (c ∈ pending_requests s));
    [destruct (find_position c (request_queue s)); [simpl; lia|];
     destruct (bool_decide (token_holder s = Some c)); [simpl; lia|]|];
    destruct (token_holder s); try done;
    destruct (request_queue s); simpl in *; lia.
Qed.

(** X7: [request_token] refuses with position -1 exactly when
    [is_in_cooldown] answers true, with the same number of seconds; when
    the cooldown has expired both calls remove the entry. *)
Theorem request_refusal_is_cooldown c now s r :
  (snd (is_in_cooldown c now s) = (true, r)
   <-> snd (request_token c now s) = (false, (-1)%Z, r))
  /\ cooldowns (fst (request_token c now s)) !! c
     = cooldowns (fst (is_in_cooldown c now s)) !! c.
Proof.
  assert (Hpos : forall s1 r1,
    snd (request_pending c now s1) ≠ (false, (-1)%Z, r1)).
  { intros s1 r1 Heq. pose proof (request_pending_position c now s1) as Hp.
    rewrite Heq in Hp. simpl in Hp. lia. }
  assert (Hkeep : forall s1,
    cooldowns (fst (request_pending c now s1)) = cooldowns s1).
  { intros s1. unfold request_pending, grant_or_enqueue.
    destruct (bool_decide (c ∈ pending_requests s1));
      [destruct (find_position c (request_queue s1)); [done|];
       destruct (bool_decide (token_holder s1 = Some c)); [done|]|];
      destruct (token_holder s1); try done; by destruct (request_queue s1). }
  unfold is_in_cooldown, request_token.
  destruct (cooldowns s !! c) as [u|] eqn:Hu.
  - destruct (Qltb now u); simpl.
    + split; [|done]. split; intros [= <-]; done.
    + rewrite Hkeep. split; [|done].
      split; [done | intros Heq; by apply Hpos in Heq].
  - rewrite Hkeep. split; [|done].
    split; [done | intros Heq; by apply Hpos in Heq].
Qed.

(** X8: a forced release is exempt from the cooldown: on a reachable
    state, the next request of the evicted holder is never refused.  It
    is granted at once when nobody was waiting, and otherwise the
    evicted holder is queued behind those who were. *)
Theorem force_release_then_request name duration s h now t :
  reachable name duration s ->
  token_holder s = Some h ->
  let s1 := fst (force_release_token now s) in
  match request_queue s with
  | [] => snd (request_token h t s1) = (true, 0%Z, 0%Z)
          /\ token_holder (fst (request_token h t s1)) = Some h
  | c :: rest =>
      snd (request_token h t s1)
        = (false, Z.of_nat (length rest), (Z.of_nat (length rest) * 5)%Z)
      /\ token_holder (fst (request_token h t s1)) = Some c
      /\ request_queue (fst (request_token h t s1)) = rest ++ [h]
  end.
Proof.
  intros Hr Hh s1. pose proof (reachable_wf _ _ _ Hr) as Hwf.
  pose proof (holder_no_cooldown _ _ _ Hr h Hh) as Hcd.
  pose proof (wf_holder_not_queued s Hwf h Hh) as Hq.
  subst s1. unfold force_release_token, request_token.
  destruct (request_queue s) as [|c rest] eqn:Hqueue; simpl; rewrite Hcd.
  - unfold request_pending, grant_or_enqueue. simpl.
    by destruct (bool_decide _).
  - apply not_elem_of_cons in Hq as [Hhc Hrest].
    unfold request_pending, grant_or_enqueue. simpl.
    apply find_position_None in Hrest. rewrite Hrest.
    rewrite (bool_decide_eq_false_2 (Some c = Some h)) by congruence.
    assert ((Z.of_nat (length (rest ++ [h])) - 1)%Z = Z.of_nat (length rest))
      as -> by (rewrite length_app; simpl; lia).
    by destruct (bool_decide _).
Qed.

Lemma force_release_then_request_witness :
  let s := fst (request_token "B" 1
             (fst (request_token "A" 0 (init "hint" 30)))) in
  snd (request_token "A" 3 (fst (force_release_token 2 s)))
    = (false, 0%Z, 0%Z)
  /\ request_queue (fst (request_token "A" 3 (fst (force_release_token 2 s))))
     = ["A"].
Proof.
  intros s.
  assert (Hr : reachable "hint" 30 s)
    by (do 2 apply reach_request; apply reach_init).
  destruct (force_release_then_request "hint" 30 s "A" 2 3 Hr eq_refl)
    as (Hret & _ & Hqueue).
  split; [exact Hret | exact Hqueue].
Defined.

End TokenManagerReleases.

(** ** RaymondServer *)

Section RaymondServerProperties.
Import RaymondServer.

(** Without cooldown entries for queued clients the loop of
    [release_token] computes what the loop of TokenManager computes. *)
Lemma raymond_drain_no_cooldown now q cd next :
  (forall c, c ∈ q -> cd !! c = None) ->
  drain now q cd next
    = (fst (TokenManager.pop_until_truthy q next), cd,
       snd (TokenManager.pop_until_truthy q next)).
Proof.
  revert next. induction q as [|c q IH]; intros next Hq; simpl; [done|].
  destruct (truthy_opt next); [done|].
  rewrite (Hq c) by apply list_elem_of_here.
  apply IH. intros c' Hc'. apply Hq. by apply list_elem_of_further.
Qed.

Lemma raymond_inv_init name duration : inv (init name duration).
Proof. by constructor. Qed.

Lemma raymond_inv_request_checked c s :
  wf s -> inv s -> cooldowns s !! c = None ->
  inv (fst (request_checked c s)).
Proof.
  intros Hwf [Htok Hfree Hq Hh] Hc. unfold request_checked.
  destruct (bool_decide (current_holder s = Some c)); [done|].
  destruct (bool_decide (c ∈ queue s)); [done|].
  destruct (has_token s) eqn:Ht; simpl.
  - destruct (current_holder s) as [h|] eqn:Hholder.
    + assert (Some h = None) by by apply Htok. done.
    + rewrite bool_decide_eq_true_2 by done. constructor; simpl.
      * split; done.
      * done.
      * rewrite (Hfree eq_refl). intros x Hx. by apply elem_of_nil in Hx.
      * by intros h [= <-].
  - assert (inv (mk (resource_name s) false (current_holder s)
                    (queue s ++ [c]) (cooldowns s) (cooldown_duration s))).
    { constructor; simpl.
      - done.
      - intros Hnone. apply Htok in Hnone. done.
      - intros x [Hx | ->%list_elem_of_singleton]%elem_of_app;
          [by apply Hq | done].
      - done. }
    by destruct (_ || _).
Qed.

Lemma raymond_inv_request_token c ts now s :
  wf s -> inv s -> inv (fst (request_token c ts now s)).
Proof.
  intros Hwf Hinv. unfold request_token.
  destruct (cooldowns s !! c) as [u|] eqn:Hu.
  - destruct (Qltb now u); [done|].
    apply raymond_inv_request_checked.
    + by destruct Hwf.
    + destruct Hinv as [Htok Hfree Hq Hh]. constructor; simpl; try done.
      * intros x Hx. apply lookup_delete_None. right. by apply Hq.
      * intros h Hholder. apply lookup_delete_None. right. by apply Hh.
    + simpl. apply lookup_delete_eq.
  - by apply raymond_inv_request_checked.
Qed.

Lemma raymond_inv_release_token c now s :
  wf s -> inv s -> inv (fst (release_token c now s)).
Proof.
  intros [Hnd Hnq] [Htok Hfree Hq Hh]. unfold release_token.
  destruct (bool_decide (current_holder s = Some c)) eqn:Hc; [|done].
  apply bool_decide_eq_true in Hc.
  assert (Hcool : forall x, x ∈ queue s ->
    <[c:=(now + cooldown_duration s)%Q]> (cooldowns s) !! x = None).
  { intros x Hx. rewrite lookup_insert_ne; [by apply Hq|].
    intros ->. by apply (Hnq x). }
  rewrite raymond_drain_no_cooldown by done.
  destruct (pop_until_truthy_spec (queue s) None)
    as (popped & Hqueue & Hnext & Hexit).
  destruct (TokenManager.pop_until_truthy (queue s) None) as [q' next'].
  simpl in *.
  assert (Hsub : forall x, x ∈ q' -> x ∈ queue s).
  { intros x Hx. rewrite Hqueue. apply elem_of_app. by right. }
  destruct (truthy_opt next') eqn:Htr.
  - destruct Hnext as [-> | (x & -> & Hx)]; [done|].
    constructor; simpl; try done.
    + intros y Hy. apply Hcool. by apply Hsub.
    + intros h [= <-]. apply Hcool. rewrite Hqueue. apply elem_of_app.
      by left.
  - rewrite (Hexit eq_refl). constructor; simpl; try done.
    intros y Hy. by apply elem_of_nil in Hy.
Qed.

Lemma raymond_reachable_inv name duration s :
  reachable name duration s -> inv s.
Proof.
  induction 1 as [|c ts now s Hr IH|c now s Hr IH].
  - apply raymond_inv_init.
  - apply raymond_inv_request_token; [by eapply raymond_reachable_wf | done].
  - apply raymond_inv_release_token; [by eapply raymond_reachable_wf | done].
Qed.

(** X9: in every reachable state of RaymondServer the server has the
    token exactly when no client holds it, nobody waits for a free token,
    and neither the holder nor a queued client has a cooldown entry. *)
Theorem raymond_server_invariant name duration s :
  reachable name duration s ->
  (has_token s = true <-> current_holder s = None)
  /\ (current_holder s = None -> queue s = [])
  /\ (forall c, current_holder s = Some c \/ c ∈ queue s ->
        cooldowns s !! c = None).
Proof.
  intros [Htok Hfree Hq Hh]%raymond_reachable_inv.
  split; [done|]. split; [done|].
  intros c [Hc | Hc]; [by apply Hh | by apply Hq].
Qed.

Lemma raymond_server_invariant_witness :
  let s := fst (release_token "A" 2 (fst (request_token "B" 1 1
             (fst (request_token "A" 0 0 (init "leaderboard" 30)))))) in
  current_holder s = Some "B" /\ has_token s = false
  /\ cooldowns s !! "B" = None.
Proof.
  intros s.
  destruct (raymond_server_invariant "leaderboard" 30 s) as (Htok & _ & Hcd).
  - apply reach_release. do 2 apply reach_request. apply reach_init.
  - split; [reflexivity|]. split.
    + destruct (has_token s) eqn:Ht; [|reflexivity].
      destruct Htok as [Htok _]. discriminate (Htok eq_refl).
    + apply Hcd. left. reflexivity.
Defined.

(** X10: in a reachable state [request_token] never answers with the
    message "In queue": whenever it enqueues, a client holds the token,
    and the message is "Leaderboard requested by multiple players". *)
Theorem raymond_request_never_in_queue name duration s c ts now :
  reachable name duration s ->
  snd (snd (request_token c ts now s)) ≠ InQueue.
Proof.
  intros Hr. pose proof (raymond_reachable_inv _ _ _ Hr) as Hinv.
  assert (Hchecked : forall cd,
    snd (snd (request_checked c (set_cooldowns cd s))) ≠ InQueue).
  { intros cd. unfold request_checked. simpl.
    destruct (bool_decide (current_holder s = Some c)); [done|].
    destruct (bool_decide (c ∈ queue s)); [done|].
    destruct (has_token s) eqn:Ht; simpl.
    - apply (inv_has_token s Hinv) in Ht. rewrite Ht. simpl. done.
    - destruct (current_holder s) as [h|] eqn:Hh.
      + rewrite (bool_decide_eq_true_2 (Some h ≠ None)) by done.
        by rewrite orb_true_r.
      + pose proof (proj2 (inv_has_token s Hinv) Hh) as Ht'.
        rewrite Ht in Ht'. done. }
  unfold request_token.
  destruct (cooldowns s !! c) as [u|]; [destruct (Qltb now u); [done|]|].
  - apply Hchecked.
  - specialize (Hchecked (cooldowns s)).
    by replace (set_cooldowns (cooldowns s) s) with s in Hchecked
      by by destruct s.
Qed.

Lemma raymond_request_never_in_queue_witness :
  snd (snd (request_token "B" 1 1
              (fst (request_token "A" 0 0 (init "leaderboard" 30)))))
    ≠ InQueue.
Proof.
  apply (raymond_request_never_in_queue "leaderboard" 30).
  apply reach_request. apply reach_init.
Defined.

Lemma count_position_lookup (c : string) (q : list string) (i : nat) :
  NoDup q -> q !! i = Some c -> count_position c q = i.
Proof.
  revert i. induction q as [|x q IH]; intros i Hnd Hi; [done|].
  apply NoDup_cons in Hnd as [Hx Hnd]. simpl.
  destruct i as [|i]; simpl in Hi.
  - injection Hi as ->. by rewrite String.eqb_refl.
  - destruct (String.eqb_spec x c) as [->|Hne].
    + exfalso. apply Hx. by eapply list_elem_of_lookup_2.
    + by rewrite (IH i).
Qed.

(** X11: in a reachable state a repeated request changes nothing: the
    holder gets "Token already held" with position 0, a queued client
    gets its index in the queue. *)
Theorem raymond_request_repeated name duration s ts now :
  reachable name duration s ->
  (forall h, current_holder s = Some h ->
     request_token h ts now s = (s, (true, 0%Z, AlreadyHeld)))
  /\ (forall i c, queue s !! i = Some c ->
        request_token c ts now s
          = (s, (false, Z.of_nat i, AlreadyQueued i))).
Proof.
  intros Hr. pose proof (raymond_reachable_inv _ _ _ Hr) as Hinv.
  pose proof (raymond_reachable_wf _ _ _ Hr) as Hwf. split.
  - intros h Hh. unfold request_token, request_checked.
    rewrite (inv_holder_no_cooldown s Hinv h Hh).
    by rewrite bool_decide_eq_true_2.
  - intros i c Hi. unfold request_token, request_checked.
    assert (c ∈ queue s) as Hc by by eapply list_elem_of_lookup_2.
    rewrite (inv_queue_no_cooldown s Hinv c Hc).
    rewrite bool_decide_eq_false_2; last first.
    { intros Hh. by apply (wf_holder_not_queued s Hwf c). }
    rewrite bool_decide_eq_true_2 by done.
    by rewrite (count_position_lookup c _ i (wf_nodup s Hwf) Hi).
Qed.

Lemma raymond_request_repeated_witness :
  let s := fst (request_token "B" 1 1
             (fst (request_token "A" 0 0 (init "leaderboard" 30)))) in
  request_token "A" 5 9 s = (s, (true, 0%Z, AlreadyHeld))
  /\ request_token "B" 5 9 s = (s, (false, 0%Z, AlreadyQueued 0)).
Proof.
  intros s.
  destruct (raymond_request_repeated "leaderboard" 30 s 5 9)
    as [Hholder Hqueued].
  - do 2 apply reach_request. apply reach_init.
  - split; [by apply Hholder | by apply (Hqueued 0%nat "B")].
Defined.

End RaymondServerProperties.

(** ** TokenManager and RaymondServer answer alike *)

Section TokenManagersAgree.

Lemma find_position_count (c : string) (q : list string) :
  c ∈ q -> find_position c q = Some (RaymondServer.count_position c q).
Proof.
  induction q as [|x q IH]; intros Hc; [by apply elem_of_nil in Hc|].
  simpl. destruct (String.eqb_spec x c) as [->|Hne]; [done|].
  apply elem_of_cons in Hc as [->|Hc]; [done|]. by rewrite IH.
Qed.

Lemma drains_agree now q cd pending next :
  RaymondServer.drain now q cd next
    = (fst (fst (fst (TokenManager.drain now q cd pending next))),
       snd (fst (fst (TokenManager.drain now q cd pending next))),
       snd (TokenManager.drain now q cd pending next)).
Proof.
  revert cd pending next.
  induction q as [|c q IH]; intros cd pending next; simpl; [done|].
  destruct (truthy_opt next); [done|].
  destruct (cd !! c) as [u|]; [destruct (Qltb now u)|]; apply IH.
Qed.

Lemma agree_request_pending c now tm rs :
  TokenManager.wf tm -> RaymondServer.wf rs ->
  (RaymondServer.has_token rs = true
   <-> RaymondServer.current_holder rs = None) ->
  same_token_state tm rs ->
  fst (snd (TokenManager.request_pending c now tm))
    = fst (snd (RaymondServer.request_checked c rs))
  /\ same_token_state (fst (TokenManager.request_pending c now tm))
           (fst (RaymondServer.request_checked c rs)).
Proof.
  intros Hwf Hwf' Htok (Hh & Hq & Hcd & Hd).
  unfold TokenManager.request_pending, RaymondServer.request_checked.
  destruct (decide (TokenManager.token_holder tm = Some c)) as [Hc|Hc].
  { rewrite bool_decide_eq_true_2
      by by apply (TokenManager.wf_holder_pending tm Hwf).
    assert (find_position c (TokenManager.request_queue tm) = None) as ->
      by by apply find_position_None,
              (TokenManager.wf_holder_not_queued tm Hwf).
    rewrite !bool_decide_eq_true_2 by congruence. done. }
  rewrite (bool_decide_eq_false_2 (RaymondServer.current_holder rs = Some c))
    by congruence.
  destruct (decide (c ∈ TokenManager.request_queue tm)) as [Hin|Hin].
  { rewrite bool_decide_eq_true_2
      by by apply (TokenManager.wf_queue_pending tm Hwf).
    rewrite (find_position_count c _ Hin).
    rewrite bool_decide_eq_true_2 by by rewrite <- Hq.
    rewrite Hq. done. }
  rewrite (bool_decide_eq_false_2 (c ∈ RaymondServer.queue rs))
    by by rewrite <- Hq.
  assert (find_position c (TokenManager.request_queue tm) = None) as Hpos
    by by apply find_position_None.
  rewrite Hpos, (bool_decide_eq_false_2 _ Hc).
  assert (Hgoe : forall b : bool,
    (if b then TokenManager.grant_or_enqueue c now tm
     else TokenManager.grant_or_enqueue c now tm)
    = TokenManager.grant_or_enqueue c now tm) by by intros [].
  rewrite Hgoe. clear Hgoe. unfold TokenManager.grant_or_enqueue.
  destruct (TokenManager.token_holder tm) as [h|] eqn:Hholder.
  - rewrite <- Hh. rewrite (bool_decide_eq_false_2 (Some h = None)) by done.
    rewrite andb_false_r. rewrite <- Hq.
    by destruct (_ || _).
  - rewrite (TokenManager.wf_free_empty tm Hwf Hholder) in *.
    rewrite <- Hh.
    rewrite (proj2 Htok) by done. simpl. by rewrite <- Hq.
Qed.

Lemma agree_call call tm rs :
  TokenManager.wf tm -> RaymondServer.wf rs -> RaymondServer.inv rs ->
  same_token_state tm rs ->
  snd (token_manager_call call tm) = snd (raymond_server_call call rs)
  /\ same_token_state (fst (token_manager_call call tm))
           (fst (raymond_server_call call rs)).
Proof.
  intros Hwf Hwf' Hinv Hagree.
  pose proof Hagree as (Hh & Hq & Hcd & Hd).
  destruct call as [c ts now | c now]; simpl.
  - unfold TokenManager.request_token, RaymondServer.request_token.
    rewrite <- Hcd.
    destruct (TokenManager.cooldowns tm !! c) as [u|] eqn:Hu.
    + destruct (Qltb now u); [done|].
      destruct (agree_request_pending c now
        (TokenManager.set_cooldowns
           (delete c (TokenManager.cooldowns tm)) tm)
        (RaymondServer.set_cooldowns
           (delete c (RaymondServer.cooldowns rs)) rs)) as [Hres Hag].
      * by apply wf_set_cooldowns_delete.
      * by destruct Hwf'.
      * apply (RaymondServer.inv_has_token rs Hinv).
      * simpl. by rewrite Hcd.
      * rewrite <- Hcd in *.
        destruct (TokenManager.request_pending _ _ _) as [tm' [[g p] w]].
        destruct (RaymondServer.request_checked _ _) as [rs' [[g' p'] m]].
        simpl in *. injection Hres as -> ->. done.
    + destruct (agree_request_pending c now tm rs) as [Hres Hag]; try done.
      { apply (RaymondServer.inv_has_token rs Hinv). }
      destruct (TokenManager.request_pending _ _ _) as [tm' [[g p] w]].
      destruct (RaymondServer.request_checked _ _) as [rs' [[g' p'] m]].
      simpl in *. injection Hres as -> ->. done.
  - unfold TokenManager.release_token, RaymondServer.release_token.
    rewrite <- Hh.
    destruct (bool_decide (TokenManager.token_holder tm = Some c)); [|done].
    rewrite <- Hq, <- Hcd, <- Hd.
    rewrite (drains_agree now _ _
               (TokenManager.pending_requests tm ∖ {[c]}) None).
    destruct (TokenManager.drain _ _ _ _ _) as [[[q' cd'] pending'] next'].
    simpl. by destruct (truthy_opt next').
Qed.

Lemma agree_run calls tm rs :
  TokenManager.wf tm -> RaymondServer.wf rs -> RaymondServer.inv rs ->
  same_token_state tm rs ->
  token_manager_run calls tm = raymond_server_run calls rs.
Proof.
  revert tm rs. induction calls as [|call calls IH];
    intros tm rs Hwf Hwf' Hinv Hagree; simpl; [done|].
  destruct (agree_call call tm rs Hwf Hwf' Hinv Hagree) as [-> Hag].
  f_equal. apply IH; try done.
  - destruct call; simpl.
    + pose proof (wf_request_token client_id current_time tm Hwf) as H.
      by destruct (TokenManager.request_token _ _ _) as [? [[? ?] ?]].
    + pose proof (wf_release_token client_id current_time tm Hwf) as H.
      by destruct (TokenManager.release_token _ _ _) as [? [? ?]].
  - destruct call; simpl.
    + pose proof (raymond_wf_request_token client_id timestamp
                    current_time rs Hwf') as H.
      by destruct (RaymondServer.request_token _ _ _ _) as [? [[? ?] ?]].
    + pose proof (raymond_wf_release_token client_id current_time rs Hwf')
        as H.
      by destruct (RaymondServer.release_token _ _ _) as [? [? ?]].
  - destruct call; simpl.
    + pose proof (raymond_inv_request_token client_id timestamp
                    current_time rs Hwf' Hinv) as H.
      by destruct (RaymondServer.request_token _ _ _ _) as [? [[? ?] ?]].
    + pose proof (raymond_inv_release_token client_id current_time rs
                    Hwf' Hinv) as H.
      by destruct (RaymondServer.release_token _ _ _) as [? [? ?]].
Qed.

(** X12: TokenManager and RaymondServer are the same token service: for
    every sequence of request and release calls, by any clients and at
    any clock readings, two fresh managers with the same cooldown
    duration give the same granted flags, the same positions and the
    same release results. *)
Theorem token_manager_raymond_same_replies name name' duration calls :
  token_manager_run calls (TokenManager.init name duration)
    = raymond_server_run calls (RaymondServer.init name' duration).
Proof.
  apply agree_run.
  - apply wf_init.
  - apply raymond_wf_init.
  - apply raymond_inv_init.
  - done.
Qed.

End TokenManagersAgree.

(** ** LeaderboardToken *)

Section LeaderboardTokenProperties.
Import LeaderboardToken.

(** X13: [request_token] never raises: [list.index] always finds the
    player, and the position it reports to a queued player is the
    1-based index of that player in the queue. *)
Theorem leaderboard_request_position p now s :
  exists r,
    snd (request_token p now s) = Return r
    /\ forall k, r = (false, AddedToQueue k) ->
         (1 <= k)%nat
         /\ queue (fst (request_token p now s)) !! (k - 1)%nat = Some p.
Proof.
  unfold request_token.
  destruct (in_cooldown p now s); [by eexists|].
  destruct (has_token s && bool_decide (current_holder s = None));
    [by eexists|].
  destruct (find_position p _) as [i|] eqn:Hpos.
  - eexists. split; [done|]. intros k [= <-]. split; [lia|]. simpl.
    replace (i + 1 - 1)%nat with i by lia. by apply find_position_Some.
  - apply find_position_None in Hpos. exfalso. apply Hpos.
    destruct (bool_decide (p ∈ queue s)) eqn:Hp.
    + by apply bool_decide_eq_true in Hp.
    + apply elem_of_app. right. by apply list_elem_of_singleton.
Qed.

Lemma leaderboard_reachable_free s :
  reachable s ->
  has_token s = true /\ cooldown_period s = 30%Q
  /\ (current_holder s = None -> queue s = []).
Proof.
  induction 1 as [|p now s _ (Htok & Hper & Hfree)|p now s _ (Htok & Hper & Hfree)].
  - done.
  - unfold request_token.
    destruct (in_cooldown p now s); [done|].
    rewrite Htok. simpl.
    destruct (current_holder s) as [h|] eqn:Hh.
    + rewrite (bool_decide_eq_false_2 (Some h = None)) by done.
      by destruct (find_position p _).
    + rewrite bool_decide_eq_true_2 by done. simpl.
      split; [done|]. split; [done|]. done.
  - unfold release_token.
    destruct (bool_decide (current_holder s = Some p)); [|done].
    by destruct (queue s).
Qed.

(** X14: in every reachable state of LeaderboardToken the server flag
    [has_token] is still true (no operation clears it) and nobody waits
    for a free token; so a request that finds the token free is granted
    unless the player is cooling down. *)
Theorem leaderboard_free_token_granted s p now :
  reachable s ->
  has_token s = true
  /\ (current_holder s = None -> queue s = [])
  /\ (current_holder s = None -> in_cooldown p now s = None ->
      snd (request_token p now s) = Return (true, TokenGranted)
      /\ current_holder (fst (request_token p now s)) = Some p).
Proof.
  intros (Htok & _ & Hfree)%leaderboard_reachable_free.
  split; [done|]. split; [done|].
  intros Hh Hcd. unfold request_token. rewrite Hcd, Htok, Hh. done.
Qed.

Lemma leaderboard_free_token_granted_witness :
  let s := fst (release_token "A" 1 (fst (request_token "A" 0 init))) in
  current_holder s = None
  /\ snd (request_token "B" 2 s) = Return (true, TokenGranted).
Proof.
  intros s. split; [reflexivity|].
  destruct (leaderboard_free_token_granted s "B" 2) as (_ & _ & Hgrant).
  - apply reach_release. apply reach_request. apply reach_init.
  - by apply Hgrant.
Defined.

(** X15: the releaser is cooled down: after a release at instant [now],
    each request of the same player made less than [cooldown_period]
    later is refused with the time left, and changes nothing. *)
Theorem leaderboard_release_then_refused s p now t :
  current_holder s = Some p ->
  (t - now < cooldown_period s)%Q ->
  request_token p t (fst (release_token p now s))
    = (fst (release_token p now s),
       Return (false, CooldownRemaining (cooldown_period s - (t - now)))).
Proof.
  intros Hh Ht. unfold release_token.
  rewrite bool_decide_eq_true_2 by done.
  apply Qltb_lt in Ht.
  destruct (queue s); unfold request_token, in_cooldown; simpl;
    by rewrite lookup_insert_eq, Ht.
Qed.

Lemma leaderboard_release_then_refused_witness :
  let s := fst (request_token "A" 0 init) in
  snd (request_token "A" 11 (fst (release_token "A" 1 s)))
    = Return (false, CooldownRemaining (30 - (11 - 1))).
Proof.
  intros s.
  rewrite (leaderboard_release_then_refused s "A" 1 11); reflexivity.
Defined.

End LeaderboardTokenProperties.

(** ** The timer-based critical section *)

Section RicartAgrawalaProperties.
Import RicartAgrawala.

(** What every operation keeps: an occupied section has its timestamp
    and its start instant set and its timer started; the two durations
    are the constants of the class. *)
Lemma timer_session_invariant name s :
  reachable name s ->
  cs_duration s = 90%Q /\ cooldown_duration s = 120%Q
  /\ forall c, in_critical_section s = Some c ->
       exists ts st, cs_timestamp s = Some ts /\ cs_start_time s = Some st
                     /\ (c, ts) ∈ timers s.
Proof.
  induction 1 as [|c ts t1 t2 t3 t4 s _ IH|c now s _ IH|c ts now s _ IH
                  |c now s _ IH].
  - done.
  - destruct IH as (Hd & Hcd & IH).
    assert (Hgrant : forall tg s1,
      cs_duration s1 = 90%Q -> cooldown_duration s1 = 120%Q ->
      cs_duration (fst (grant c ts tg s1)) = 90%Q
      /\ cooldown_duration (fst (grant c ts tg s1)) = 120%Q
      /\ forall c', in_critical_section (fst (grant c ts tg s1)) = Some c' ->
           exists ts' st, cs_timestamp (fst (grant c ts tg s1)) = Some ts'
             /\ cs_start_time (fst (grant c ts tg s1)) = Some st
             /\ (c', ts') ∈ timers (fst (grant c ts tg s1))).
    { intros tg s1 H1 H2. simpl. split; [done|]. split; [done|].
      intros c' [= <-]. exists ts, tg. split; [done|]. split; [done|].
      apply elem_of_app. right. by apply list_elem_of_singleton. }
    assert (Hchecked :
      cs_duration (fst (request_checked c ts t2 t3 t4 s)) = 90%Q
      /\ cooldown_duration (fst (request_checked c ts t2 t3 t4 s)) = 120%Q
      /\ forall c',
           in_critical_section (fst (request_checked c ts t2 t3 t4 s))
             = Some c' ->
           exists ts' st,
             cs_timestamp (fst (request_checked c ts t2 t3 t4 s)) = Some ts'
             /\ cs_start_time (fst (request_checked c ts t2 t3 t4 s))
                = Some st
             /\ (c', ts') ∈ timers (fst (request_checked c ts t2 t3 t4 s))).
    { unfold request_checked.
      destruct (in_critical_section s) as [holder|] eqn:Hh;
        [|by apply Hgrant].
      destruct (truthy holder); [|by apply Hgrant].
      destruct (holder_expired t2 s); [by apply Hgrant|].
      destruct (IH holder eq_refl) as (ts' & st & Hts & Hst & Hin).
      rewrite Hst. simpl. split; [done|]. split; [done|].
      intros c' [= <-]. by exists ts', st. }
    unfold request_critical_section.
    destruct (cooldowns s !! c) as [u|]; [|done].
    by destruct (Qltb t1 u).
  - unfold release_critical_section.
    destruct (bool_decide (in_critical_section s = Some c)); [|done].
    simpl. by destruct IH as (? & ? & _).
  - unfold _auto_release_critical_section.
    destruct (_ && _); [|done].
    simpl. by destruct IH as (? & ? & _).
  - destruct IH as (Hd & Hcd & IH). unfold get_remaining_time.
    assert (Hcool :
      let r := match cooldowns s !! c with
               | Some cooldown_until =>
                   if Qltb now cooldown_until
                   then (s, (CoolingDown, py_int (cooldown_until - now)))
                   else (mk (resource_name s) (deferred_replies s)
                            (in_critical_section s) (cs_timestamp s)
                            (cs_start_time s) (cs_duration s)
                            (delete c (cooldowns s)) (cooldown_duration s)
                            (timers s), (Available, 0%Z))
               | None => (s, (Available, 0%Z))
               end in
      cs_duration (fst r) = 90%Q /\ cooldown_duration (fst r) = 120%Q
      /\ forall c', in_critical_section (fst r) = Some c' ->
           exists ts st, cs_timestamp (fst r) = Some ts
             /\ cs_start_time (fst r) = Some st /\ (c', ts) ∈ timers (fst r)).
    { destruct (cooldowns s !! c) as [u|]; [|done].
      by destruct (Qltb now u). }
    destruct (bool_decide (in_critical_section s = Some c)); [|done].
    by destruct (start_time_truthy s).
Qed.

(** X16: in every reachable state an occupied section has its timer
    started: the pair of the holder and the session timestamp is among
    the timers the object has started. *)
Theorem timer_started_for_session name s c :
  reachable name s ->
  in_critical_section s = Some c ->
  exists ts, cs_timestamp s = Some ts /\ (c, ts) ∈ timers s.
Proof.
  intros (_ & _ & Hinv)%timer_session_invariant Hc.
  destruct (Hinv c Hc) as (ts & st & Hts & _ & Hin). by exists ts.
Qed.

Lemma timer_started_for_session_witness :
  let s := fst (request_critical_section "A" 7 0 0 0 0 (init "time_warp")) in
  in_critical_section s = Some "A"
  /\ exists ts, cs_timestamp s = Some ts /\ ("A", ts) ∈ timers s.
Proof.
  intros s. split; [reflexivity|].
  apply (timer_started_for_session "time_warp" s "A").
  - apply reach_request. apply reach_init.
  - reflexivity.
Defined.

(** X17: in every reachable state [request_critical_section] returns its
    tuple: the sum [self.cs_start_time + self.cs_duration] is never
    taken while the start instant is [None]. *)
Theorem timer_request_never_raises name s c ts t1 t2 t3 t4 :
  reachable name s ->
  exists r, snd (request_critical_section c ts t1 t2 t3 t4 s) = Return r.
Proof.
  intros (_ & _ & Hinv)%timer_session_invariant.
  apply timer_request_returns.
  destruct (in_critical_section s) as [h|]; [|done].
  intros _. destruct (Hinv h eq_refl) as (? & st & _ & -> & _). done.
Qed.

Lemma timer_request_never_raises_witness :
  exists r,
    snd (request_critical_section "B" 8 1 1 1 1
           (fst (request_critical_section "A" 7 0 0 0 0 (init "time_warp"))))
      = Return r.
Proof.
  apply (timer_request_never_raises "time_warp").
  apply reach_request. apply reach_init.
Defined.

(** X18: release is followed by a cooldown: after the holder has left the
    section at instant [now], by an explicit release or by its timer,
    [get_remaining_time] reports "cooldown" and each of its requests is
    refused with reason "cooldown", with the same whole seconds left,
    until [now + cooldown_duration]; neither call changes the state. *)
Theorem timer_release_then_cooldown s c ts now t :
  in_critical_section s = Some c -> cs_timestamp s = Some ts ->
  (t < now + cooldown_duration s)%Q ->
  let s1 := fst (release_critical_section c now s) in
  _auto_release_critical_section c ts now s = s1
  /\ (forall ts' t2 t3 t4,
        request_critical_section c ts' t t2 t3 t4 s1
          = (s1, Return (false, Some Cooldown,
                         inject_Z (py_int (now + cooldown_duration s - t)))))
  /\ get_remaining_time c t s1
     = (s1, (CoolingDown, py_int (now + cooldown_duration s - t))).
Proof.
  intros Hc Hts Ht s1. subst s1.
  unfold _auto_release_critical_section, release_critical_section.
  rewrite !bool_decide_eq_true_2 by done. simpl. split; [done|].
  apply Qltb_lt in Ht. split.
  - intros ts' t2 t3 t4. unfold request_critical_section. simpl.
    by rewrite lookup_insert_eq, Ht.
  - unfold get_remaining_time. simpl.
    by rewrite lookup_insert_eq, Ht.
Qed.

Lemma timer_release_then_cooldown_witness :
  let s := fst (request_critical_section "A" 7 0 0 0 0 (init "time_warp")) in
  get_remaining_time "A" 100 (fst (release_critical_section "A" 50 s))
    = (fst (release_critical_section "A" 50 s),
       (CoolingDown, py_int (50 + 120 - 100))).
Proof.
  intros s.
  assert (Hc : in_critical_section s = Some "A") by reflexivity.
  assert (Hts : cs_timestamp s = Some 7%Z) by reflexivity.
  assert (Ht : (100 < 50 + cooldown_duration s)%Q) by reflexivity.
  exact (proj2 (proj2 (timer_release_then_cooldown s "A" 7 50 100 Hc Hts Ht))).
Defined.

End RicartAgrawalaProperties.

(** ** The simple critical section *)

Section RicartAgrawalaSimpleProperties.
Import RicartAgrawalaSimple.

(** X19: the simple critical section is never entered as the file
    stands: [request_critical_section] and [get_status] raise
    [NameError] on every call, because the module does not bind [time],
    and change nothing; so every reachable state is the initial one and
    every [release_critical_section] is refused with "Not in critical
    section". *)
Theorem simple_section_never_entered s p ts now :
  reachable s ->
  request_critical_section p ts now s = (s, Raise "NameError")
  /\ get_status now s = Raise "NameError"
  /\ s = init
  /\ (forall q,
        release_critical_section q s = (s, (false, NotInCriticalSection))).
Proof.
  intros Hr. split; [done|]. split; [done|].
  assert (Hinit : s = init).
  { induction Hr as [|q ts' now' s' _ IH|q s' _ IH]; [done|done|].
    subst s'. done. }
  split; [done|]. subst s. done.
Qed.

Lemma simple_section_never_entered_witness :
  request_critical_section "B" 2 10
    (fst (release_critical_section (Some "A")
       (fst (request_critical_section "A" 1 0 init))))
  = (init, Raise "NameError").
Proof.
  destruct (simple_section_never_entered
              (fst (release_critical_section (Some "A")
                 (fst (request_critical_section "A" 1 0 init))))
              "B" 2 10) as (Hreq & _ & Hinit & _).
  - apply reach_release. apply reach_request. apply reach_init.
  - rewrite Hreq. by rewrite Hinit.
Defined.

End RicartAgrawalaSimpleProperties.

(** ** TimeWarpManager: sessions, lock and status *)

Section TimeWarpManagerProperties.
Import TimeWarpManager.

Lemma py_int_nonneg (x : Q) : (0 <= x)%Q -> (0 <= py_int x)%Z.
Proof.
  destruct x as [n d]. unfold Qle, py_int. simpl. intros Hn.
  apply Z.quot_pos; lia.
Qed.

(** X20: with the lock free, [activate_time_warp], [deactivate_time_warp]
    and [get_status] return and leave the lock free (only the methods
    that call [deactivate_time_warp] from inside can block). *)
Theorem time_warp_methods_return c oc now s :
  lock s = false ->
  (exists s' r, activate_time_warp c now s = Returned s' r /\ lock s' = false)
  /\ (exists s' r,
        deactivate_time_warp c now s = Returned s' r /\ lock s' = false)
  /\ (exists r, get_status oc now s = Returned s r).
Proof.
  intros Hlock. split; [|split].
  - unfold activate_time_warp, with_lock. rewrite Hlock.
    destruct (in_cooldown c now _); [by eexists _, _|].
    destruct (still_active c now _); by eexists _, _.
  - unfold deactivate_time_warp, with_lock. rewrite Hlock. simpl.
    destruct (active_warps s !! c); by eexists _, _.
  - unfold get_status, with_lock. rewrite Hlock.
    destruct oc; simpl; eexists; by rewrite (set_lock_free s Hlock).
Qed.

Lemma time_warp_methods_return_witness :
  exists r, get_status None 5 (init 90 120) = Returned (init 90 120) r.
Proof.
  destruct (time_warp_methods_return "X" None 5 (init 90 120) eq_refl)
    as (_ & _ & Hstatus).
  exact Hstatus.
Defined.

(** X21: sessions are per client: whatever a call made for client [c]
    does, activation, deactivation, timer callback or activity query, it
    leaves the session and the cooldown of every other client as they
    were. *)
Theorem time_warp_other_clients_untouched c c' now now' expected s :
  c' ≠ c ->
  let same (s' : t) :=
    active_warps s' !! c' = active_warps s !! c'
    /\ cooldowns s' !! c' = cooldowns s !! c' in
  same (outcome_state (activate_time_warp c now s))
  /\ same (outcome_state (deactivate_time_warp c now s))
  /\ same (outcome_state (_auto_deactivate_time_warp c expected now s))
  /\ same (outcome_state (is_time_warp_active c now now' s)).
Proof.
  intros Hne same. subst same. simpl.
  unfold activate_time_warp, deactivate_time_warp,
    _auto_deactivate_time_warp, is_time_warp_active, with_lock.
  destruct (lock s); simpl; [done|].
  split; [|split; [|split]].
  - destruct (in_cooldown c now _); [done|].
    destruct (still_active c now _); [done|]. simpl.
    by rewrite lookup_insert_ne.
  - destruct (active_warps s !! c); [|done]. simpl.
    by rewrite lookup_delete_ne, lookup_insert_ne.
  - destruct (active_warps s !! c) as [[st e]|]; [|done].
    by destruct (Qeq_bool e expected).
  - destruct (active_warps s !! c) as [[st e]|]; [|done].
    by destruct (Qltb now e).
Qed.

Lemma time_warp_other_clients_untouched_witness :
  let s := outcome_state (activate_time_warp "X" 0 (init 90 120)) in
  active_warps (outcome_state (deactivate_time_warp "Y" 5 s)) !! "X"
    = active_warps s !! "X".
Proof.
  intros s.
  assert (Hne : "X" ≠ "Y") by discriminate.
  destruct (time_warp_other_clients_untouched "Y" "X" 5 5 0 s Hne)
    as (_ & (Hsame & _) & _).
  exact Hsame.
Defined.

(** What every call keeps, whether it returns or blocks. *)
Lemma time_warp_session_invariant d cd s :
  reachable d cd s ->
  duration s = d /\ cooldown s = cd
  /\ forall c st e, active_warps s !! c = Some (st, e) ->
       e = (st + d)%Q /\ (c, e) ∈ timers s.
Proof.
  induction 1 as [|c now s _ (Hd & Hcd & IH)|c now s _ (Hd & Hcd & IH)
                  |c ex now s _ (Hd & Hcd & IH)|c now now' s _ (Hd & Hcd & IH)
                  |oc now s _ (Hd & Hcd & IH)].
  - done.
  - unfold activate_time_warp, with_lock.
    destruct (lock s); simpl; [done|].
    destruct (in_cooldown c now _); [done|].
    destruct (still_active c now _); [done|]. simpl.
    split; [done|]. split; [done|]. intros c' st e.
    destruct (decide (c = c')) as [<-|Hne].
    + rewrite lookup_insert_eq. intros [= <- <-]. rewrite Hd.
      split; [done|]. apply elem_of_app. right.
      by apply list_elem_of_singleton.
    + rewrite lookup_insert_ne by done. intros Hc'.
      destruct (IH c' st e Hc') as [-> Hin]. split; [done|].
      apply elem_of_app. by left.
  - unfold deactivate_time_warp, with_lock.
    destruct (lock s); simpl; [done|].
    destruct (active_warps s !! c) eqn:Hc; [|done]. simpl.
    split; [done|]. split; [done|]. intros c' st e Hc'.
    apply lookup_delete_Some in Hc' as [_ Hc']. by apply IH.
  - unfold _auto_deactivate_time_warp, with_lock.
    destruct (lock s); simpl; [done|].
    destruct (active_warps s !! c) as [[st e]|]; [|done].
    by destruct (Qeq_bool e ex).
  - unfold is_time_warp_active, with_lock.
    destruct (lock s); simpl; [done|].
    destruct (active_warps s !! c) as [[st e]|]; [|done].
    by destruct (Qltb now e).
  - unfold get_status, with_lock.
    destruct (lock s); simpl; [done|]. by destruct oc.
Qed.

(** X22: in every reachable state each stored session ends exactly one
    duration after its start, and the timer for that client and that end
    instant has been started. *)
Theorem time_warp_session_has_timer d cd s c st e :
  reachable d cd s ->
  active_warps s !! c = Some (st, e) ->
  e = (st + d)%Q /\ (c, e) ∈ timers s.
Proof.
  intros (_ & _ & Hinv)%time_warp_session_invariant Hc. by apply Hinv.
Qed.

Lemma time_warp_session_has_timer_witness :
  let s := outcome_state (activate_time_warp "X" 7 (init 90 120)) in
  ("X", (7 + 90)%Q) ∈ timers s.
Proof.
  intros s.
  apply (time_warp_session_has_timer 90 120 s "X" 7 (7 + 90)).
  - apply reach_activate. apply reach_init.
  - reflexivity.
Defined.

(** X23: deactivation is followed by a cooldown: with the lock free and
    a session stored for the client, [deactivate_time_warp] at instant
    [now] succeeds; an activation before [now + cooldown] is then refused
    with the whole seconds left and changes nothing, and an activation
    from [now + cooldown] on opens a new session that starts at the
    instant of the call. *)
Theorem time_warp_deactivate_then_activate c now t s w :
  lock s = false ->
  active_warps s !! c = Some w ->
  exists s1,
    deactivate_time_warp c now s = Returned s1 true
    /\ active_warps s1 !! c = None
    /\ ((t < now + cooldown s)%Q ->
        activate_time_warp c t s1
          = Returned s1 (false, inject_Z (py_int (now + cooldown s - t)),
                         InCooldown (py_int (now + cooldown s - t))))
    /\ ((now + cooldown s <= t)%Q ->
        exists s2,
          activate_time_warp c t s1 = Returned s2 (true, duration s, Activated)
          /\ active_warps s2 !! c = Some (t, (t + duration s)%Q)).
Proof.
  intros Hlock Hc.
  eexists. split; [|split; [|split]].
  - unfold deactivate_time_warp, with_lock. rewrite Hlock. simpl.
    rewrite Hc. done.
  - simpl. apply lookup_delete_eq.
  - intros Ht. apply Qltb_lt in Ht.
    unfold activate_time_warp, with_lock, in_cooldown. simpl.
    rewrite lookup_insert_eq, Ht. done.
  - intros Ht. apply Qltb_ge in Ht.
    unfold activate_time_warp, with_lock, in_cooldown, still_active. simpl.
    rewrite lookup_insert_eq, Ht, lookup_delete_eq.
    eexists. split; [done|]. simpl. by rewrite lookup_insert_eq.
Qed.

Lemma time_warp_deactivate_then_activate_witness :
  let s := outcome_state (activate_time_warp "X" 0 (init 90 120)) in
  exists s1,
    deactivate_time_warp "X" 10 s = Returned s1 true
    /\ activate_time_warp "X" 50 s1
       = Returned s1 (false, inject_Z (py_int (10 + 120 - 50)),
                      InCooldown (py_int (10 + 120 - 50))).
Proof.
  intros s.
  destruct (time_warp_deactivate_then_activate "X" 10 50 s (0, 0 + 90)%Q)
    as (s1 & Hde & _ & Hrefused & _).
  - reflexivity.
  - reflexivity.
  - exists s1. split; [exact Hde|]. apply Hrefused. reflexivity.
Defined.

(** X24: the status for all clients lists exactly the clients whose
    session has not ended, each with the whole seconds it has left,
    which are never negative, and likewise the clients whose cooldown
    has not expired; taking it changes nothing. *)
Theorem time_warp_status_all now s :
  lock s = false ->
  exists st,
    get_status None now s = Returned s (inr st)
    /\ (forall c r, st_active_warps st !! c = Some r <->
          exists start e, active_warps s !! c = Some (start, e)
                          /\ (now < e)%Q /\ r = py_int (e - now))
    /\ (forall c r, st_cooldowns st !! c = Some r <->
          exists e, cooldowns s !! c = Some e
                    /\ (now < e)%Q /\ r = py_int (e - now))
    /\ (forall c r, st_active_warps st !! c = Some r -> (0 <= r)%Z)
    /\ (forall c r, st_cooldowns st !! c = Some r -> (0 <= r)%Z).
Proof.
  intros Hlock. eexists. split.
  { unfold get_status, with_lock. rewrite Hlock. simpl.
    by rewrite (set_lock_free s Hlock). }
  simpl.
  assert (Hactive : forall c r,
    omap (fun w : Q * Q => if Qltb now (snd w)
                           then Some (py_int (snd w - now)) else None)
         (active_warps s) !! c = Some r <->
    exists start e, active_warps s !! c = Some (start, e)
                    /\ (now < e)%Q /\ r = py_int (e - now)).
  { intros c r. rewrite lookup_omap.
    destruct (active_warps s !! c) as [[start e]|]; simpl.
    - destruct (Qltb now e) eqn:He.
      + apply Qltb_lt in He. split.
        * intros [= <-]. by exists start, e.
        * intros (? & ? & [= <- <-] & _ & ->). done.
      + apply Qltb_ge in He. split; [done|].
        intros (? & ? & [= <- <-] & Hlt & _). exfalso.
        by apply (Qlt_not_le _ _ Hlt).
    - split; [done | intros (? & ? & ? & _); done]. }
  assert (Hcool : forall c r,
    omap (fun e : Q => if Qltb now e then Some (py_int (e - now)) else None)
         (cooldowns s) !! c = Some r <->
    exists e, cooldowns s !! c = Some e /\ (now < e)%Q /\ r = py_int (e - now)).
  { intros c r. rewrite lookup_omap.
    destruct (cooldowns s !! c) as [e|]; simpl.
    - destruct (Qltb now e) eqn:He.
      + apply Qltb_lt in He. split.
        * intros [= <-]. by exists e.
        * intros (? & [= <-] & _ & ->). done.
      + apply Qltb_ge in He. split; [done|].
        intros (? & [= <-] & Hlt & _). exfalso.
        by apply (Qlt_not_le _ _ Hlt).
    - split; [done | intros (? & ? & _); done]. }
  split; [done|]. split; [done|]. split.
  - intros c r (start & e & _ & He & ->)%Hactive.
    apply py_int_nonneg. lra.
  - intros c r (e & _ & He & ->)%Hcool. apply py_int_nonneg. lra.
Qed.

Lemma time_warp_status_all_witness :
  let s := outcome_state (activate_time_warp "X" 0 (init 90 120)) in
  exists st,
    get_status None 30 s = Returned s (inr st)
    /\ st_active_warps st !! "X" = Some (py_int (0 + 90 - 30)).
Proof.
  intros s.
  destruct (time_warp_status_all 30 s eq_refl) as (st & Hret & Hactive & _).
  exists st. split; [exact Hret|].
  apply Hactive. exists 0%Q, (0 + 90)%Q. repeat split.
Defined.

End TimeWarpManagerProperties.

(** ** Logical clocks *)

Section LogicalClockProperties.
Import LogicalClock.

Lemma logical_clock_step s e :
  (timestamp s + 1 <= timestamp (step s e))%Z
  /\ forall r, e = Sync r -> (r < timestamp (step s e))%Z.
Proof.
  destruct e as [|r]; simpl.
  - split; [lia | done].
  - split; [lia|]. intros ? [= <-]. lia.
Qed.

Lemma logical_clock_run_grows events s :
  (timestamp s + Z.of_nat (length events) <= timestamp (run events s))%Z.
Proof.
  unfold run. revert s.
  induction events as [|e events IH]; intros s; simpl; [lia|].
  specialize (IH (step s e)).
  pose proof (logical_clock_step s e) as [Hstep _]. lia.
Qed.

(** X25: a logical clock never goes back and counts every event: after a
    run of increments and synchronisations its timestamp has grown by at
    least the number of events and exceeds every timestamp it has
    received; and a timestamp produced by [increment] on one clock and
    passed to [sync] on another gives the receiver a strictly larger
    timestamp (the send event is ordered before the receive event). *)
Theorem logical_clock_orders_events events s sender :
  (timestamp s + Z.of_nat (length events) <= get_time (run events s))%Z
  /\ (forall r, Sync r ∈ events -> (r < get_time (run events s))%Z)
  /\ (snd (increment sender) < snd (sync (snd (increment sender)) s))%Z
  /\ snd (sync (snd (increment sender)) s)
     = get_time (fst (sync (snd (increment sender)) s)).
Proof.
  split; [apply logical_clock_run_grows|]. split; [|simpl; split; [lia|done]].
  unfold get_time, run. revert s.
  induction events as [|e events IH]; intros s r Hr;
    [by apply elem_of_nil in Hr|].
  simpl. apply elem_of_cons in Hr as [<- | Hr]; [|by apply IH].
  pose proof (logical_clock_step s (Sync r)) as [_ Hgt].
  specialize (Hgt r eq_refl).
  pose proof (logical_clock_run_grows events (step s (Sync r))) as Hrun.
  unfold run in Hrun. lia.
Qed.

End LogicalClockProperties.

(** ** The offset estimators: accuracy *)

Section OffsetAccuracy.
Local Open Scope Q_scope.

(** X26: the estimate is right up to half the asymmetry of the network:
    if the server clock is [theta] ahead of the client clock, the request
    travels for [d1] and the reply for [d2], with [0 < d1 + d2 < 5], then
    [synchronize] accepts the exchange, the offset it stores and returns
    differs from [theta] by [(d1 - d2) / 2], hence by at most half the
    round trip, and [get_adjusted_time] then differs from the server
    clock by the same amount. *)
Theorem offset_estimate_accuracy (t1 t2 t3 t4 theta d1 d2 now reading : Q)
    (s : NetworkTimeProtocol.t) :
  t2 == t1 + d1 + theta -> t4 == t3 - theta + d2 ->
  0 <= d1 -> 0 <= d2 -> 0 < d1 + d2 -> d1 + d2 < 5 ->
  let r := NetworkTimeProtocol.synchronize t1 t2 t3 t4 now s in
  snd r = NetworkTimeProtocol.offset (fst r)
  /\ snd r - theta == (d1 - d2) / 2
  /\ - ((d1 + d2) / 2) <= snd r - theta <= (d1 + d2) / 2
  /\ NetworkTimeProtocol.get_adjusted_time reading (fst r)
       - (reading + theta) == (d1 - d2) / 2.
Proof.
  intros H2 H4 Hd1 Hd2 Hpos Hlt r. subst r.
  unfold NetworkTimeProtocol.synchronize,
    NetworkTimeProtocol.get_adjusted_time.
  assert (Qltb 0 (t4 - t1 - (t3 - t2)) = true) as -> by (apply Qltb_lt; lra).
  assert (Qltb (t4 - t1 - (t3 - t2)) 5 = true) as -> by (apply Qltb_lt; lra).
  simpl.
  unfold Qdiv. change (/ 2) with (1 # 2).
  split; [done|]. split; [lra|]. split; [split; lra | lra].
Qed.

Lemma offset_estimate_accuracy_witness :
  snd (NetworkTimeProtocol.synchronize 0 11 12 3 20
         (NetworkTimeProtocol.init 0)) - 10 == (1 - 1) / 2.
Proof.
  apply (offset_estimate_accuracy 0 11 12 3 10 1 1 20 0
           (NetworkTimeProtocol.init 0)); reflexivity || discriminate.
Defined.

(** X27: the client estimator is the server estimator fed with the
    request instant the client has recorded: after [request_sync] at
    [t1], [process_sync_response] returns what [synchronize] returns for
    [t1] and the same other instants, and stores the same offset, when
    both start from the same stored offset. *)
Theorem client_estimator_matches_server (t1 t2 t3 t4 now : Q)
    (srv : NetworkTimeProtocol.t) (cl : NetworkTimeClient.t) :
  NetworkTimeClient.offset cl = NetworkTimeProtocol.offset srv ->
  let cl1 := fst (NetworkTimeClient.request_sync t1 cl) in
  snd (NetworkTimeClient.request_sync t1 cl) = t1
  /\ snd (NetworkTimeClient.process_sync_response t2 t3 t4 now cl1)
     = snd (NetworkTimeProtocol.synchronize t1 t2 t3 t4 now srv)
  /\ NetworkTimeClient.offset
       (fst (NetworkTimeClient.process_sync_response t2 t3 t4 now cl1))
     = NetworkTimeProtocol.offset
         (fst (NetworkTimeProtocol.synchronize t1 t2 t3 t4 now srv))
  /\ NetworkTimeClient.get_adjusted_time now
       (fst (NetworkTimeClient.process_sync_response t2 t3 t4 now cl1))
     = NetworkTimeProtocol.get_adjusted_time now
         (fst (NetworkTimeProtocol.synchronize t1 t2 t3 t4 now srv)).
Proof.
  intros Hoff cl1. subst cl1.
  unfold NetworkTimeClient.request_sync,
    NetworkTimeClient.process_sync_response,
    NetworkTimeProtocol.synchronize,
    NetworkTimeClient.get_adjusted_time,
    NetworkTimeProtocol.get_adjusted_time. simpl.
  destruct (Qltb 0 _ && Qltb _ 5); simpl; by rewrite ?Hoff.
Qed.

Lemma client_estimator_matches_server_witness :
  snd (NetworkTimeClient.process_sync_response 1 2 3 10
         (fst (NetworkTimeClient.request_sync 0 (NetworkTimeClient.init 0))))
  = snd (NetworkTimeProtocol.synchronize 0 1 2 3 10
           (NetworkTimeProtocol.init 0)).
Proof.
  apply (client_estimator_matches_server 0 1 2 3 10
           (NetworkTimeProtocol.init 0) (NetworkTimeClient.init 0)).
  reflexivity.
Defined.

End OffsetAccuracy.

(** ** common/utils.py: [format_time] *)

Section FormatTime.
Local Open Scope Q_scope.


Lemma py_int_floor (x : Q) : 0 <= x -> py_int x = Qfloor x.
Proof.
  destruct x as [n d]. unfold Qle, py_int, Qfloor. simpl. intros Hn.
  apply Z.quot_div_nonneg; lia.
Qed.

Lemma minute_remainder (seconds : Q) :
  0 <= seconds - 60 * inject_Z (Qfloor (seconds / 60))
  /\ seconds - 60 * inject_Z (Qfloor (seconds / 60)) < 60.
Proof.
  pose proof (Qfloor_le (seconds / 60)) as Hle.
  pose proof (Qlt_floor (seconds / 60)) as Hlt.
  rewrite inject_Z_plus in Hlt.
  assert (seconds == 60 * (seconds / 60)) as Hs by (field; discriminate).
  set (m := inject_Z (Qfloor (seconds / 60))) in *.
  set (q := seconds / 60) in *.
  change (inject_Z 1) with 1%Q in Hlt.
  split; lra.
Qed.

Lemma seconds_of_range (seconds : Q) : (0 <= seconds_of seconds < 60)%Z.
Proof.
  unfold seconds_of.
  destruct (minute_remainder seconds) as [H0 H60].
  rewrite py_int_floor by done.
  set (r := seconds - 60 * inject_Z (Qfloor (seconds / 60))) in *.
  split.
  - exact (Qfloor_resp_le 0 r H0).
  - rewrite Zlt_Qlt. eapply Qle_lt_trans; [apply Qfloor_le | exact H60].
Qed.



Lemma string_length_append (a b : string) :
  String.length (a +:+ b) = (String.length a + String.length b)%nat.
Proof. induction a as [|x a IH]; simpl; [done | by rewrite IH]. Qed.

Lemma format_02d_two_digits (n : Z) :
  (0 <= n < 100)%Z -> String.length (format_02d n) = 2%nat.
Proof.
  intros Hn.
  assert (Hall : forallb
    (fun k => Nat.eqb (String.length (format_02d (Z.of_nat k))) 2)
    (seq 0 100) = true) by (vm_compute; reflexivity).
  rewrite List.forallb_forall in Hall.
  specialize (Hall (Z.to_nat n)).
  rewrite Z2Nat.id in Hall by lia.
  apply Nat.eqb_eq, Hall, List.in_seq. lia.
Qed.

(** X29: below one hundred minutes the result has the fixed shape
    "MM:SS": for [0 <= seconds < 6000] it is five characters long. *)
Theorem format_time_width (seconds : Q) :
  0 <= seconds -> seconds < 6000 ->
  String.length (format_time seconds) = 5%nat.
Proof.
  intros H0 H1.
  pose proof (seconds_of_range seconds) as Hs. unfold format_time.
  assert (0 <= minutes_of seconds < 100)%Z as Hm.
  { unfold minutes_of. split.
    - assert (inject_Z 0 <= seconds / 60) as H
        by (change (inject_Z 0) with 0; apply Qle_shift_div_l; lra).
      apply Qfloor_resp_le in H. by rewrite Qfloor_Z in H.
    - rewrite Zlt_Qlt. eapply Qle_lt_trans; [apply Qfloor_le|].
      change (inject_Z 100) with 100. apply Qlt_shift_div_r; lra. }
  rewrite !string_length_append.
  rewrite !format_02d_two_digits by lia. done.
Qed.

Lemma format_time_width_witness :
  String.length (format_time (7 # 2)) = 5%nat.
Proof. apply format_time_width; reflexivity || discriminate. Defined.

End FormatTime.

(** ** DeadlockDetector: who is declared deadlocked *)

Section DeadlockDetectorProperties.
Import TokenManager DeadlockDetector.

(** X30: a deadlock is only ever declared between two different clients:
    when the skip manager is in a reachable state and
    [check_for_deadlocks] returns true, the hint holder and the skip
    holder differ; a client that holds both tokens is never declared
    deadlocked, and the check changes nothing then. *)
Theorem deadlock_needs_two_clients name duration d now :
  reachable name duration (skip_token_manager d) ->
  (snd (check_for_deadlocks now d) = true ->
   token_holder (hint_token_manager d) ≠ token_holder (skip_token_manager d))
  /\ (token_holder (hint_token_manager d)
        = token_holder (skip_token_manager d) ->
      check_for_deadlocks now d = (d, false)).
Proof.
  intros Hwf%reachable_wf.
  assert (Hsame : token_holder (hint_token_manager d)
                    = token_holder (skip_token_manager d) ->
                  check_for_deadlocks now d = (d, false)).
  { intros Heq. unfold check_for_deadlocks.
    rewrite !status_holder, !status_queue, Heq.
    destruct (token_holder (skip_token_manager d)) as [h|] eqn:Hh; [|done].
    rewrite (bool_decide_eq_false_2 (h ∈ request_queue (skip_token_manager d)))
      by by apply (wf_holder_not_queued _ Hwf). done. }
  split; [|done].
  intros Htrue Heq. rewrite (Hsame Heq) in Htrue. done.
Qed.

Lemma deadlock_needs_two_clients_witness :
  let d := DeadlockDetector.mk
             (fst (request_token "B" 1
                (fst (request_token "A" 0 (init "hint" 30)))))
             (fst (request_token "B" 3
                (fst (request_token "A" 2 (init "skip" 30))))) in
  check_for_deadlocks 4 d = (d, false).
Proof.
  intros d.
  destruct (deadlock_needs_two_clients "skip" 30 d 4) as [_ Hsame].
  - do 2 apply reach_request. apply reach_init.
  - by apply Hsame.
Defined.

End DeadlockDetectorProperties.
